(** * fix-gosec-sarif: removing the invalid [fixes] field from gosec SARIF output

    A shallow embedding of [.github/scripts/fix-gosec-sarif.py].

    The script reads [gosec-raw.sarif], parses it with [json.load], walks
    [runs[*].results[*]], deletes the key ['fixes'] wherever a result has it,
    and writes the document back with [json.dump(..., indent=2)] to
    [gosec.sarif].  On any exception it copies the raw file instead and
    re-raises.

    Layout of this file:
    - the JSON value tree as [json.load] builds it, Python dicts as
      insertion-ordered association lists;
    - the dynamic Python operations the loop uses ([.get], iteration, [in],
      [del]) with the exceptions they raise on the wrong kind of value;
    - a file system with permissions, the two output streams and a log of the
      file operations, threaded through a state-and-exception monad;
    - [fix_gosec_sarif] and [main];
    - the [json] library itself is not part of the repository: it is an
      interface ([JsonLib]), with a reference implementation for the float-free
      fragment of JSON used to run the script on concrete files;
    - the theorems. *)

From Stdlib Require Import String Ascii List ZArith Bool Lia DecimalString.
From stdpp Require Import base option strings gmap.
Import ListNotations.
Local Open Scope string_scope.
#[local] Set Warnings "-register-all".

(** ** The document tree *)

(** What [json.load] returns: [None], [bool], [int], [float], [str], [list]
    and [dict] with [str] keys.  The script never looks inside a number, so
    a float is carried as its [repr] text, which determines it.  A dict keeps
    its keys in insertion order, and [json.dump] prints them in that order: it
    is an association list (the keys of a parsed dict are pairwise
    distinct). *)
Inductive json : Type :=
| JNull
| JBool (b : bool)
| JInt (n : Z)
| JFloat (repr : string)
| JStr (s : string)
| JArr (items : list json)
| JObj (members : list (string * json)).

Definition dict : Type := list (string * json).

(** [type(x).__name__], as it appears in the interpreter's error messages. *)
Definition type_name (v : json) : string :=
  match v with
  | JNull => "NoneType"
  | JBool _ => "bool"
  | JInt _ => "int"
  | JFloat _ => "float"
  | JStr _ => "str"
  | JArr _ => "list"
  | JObj _ => "dict"
  end.

(** [d.get(k)]: the value bound to [k], if any. *)
Fixpoint dict_get (k : string) (d : dict) : option json :=
  match d with
  | [] => None
  | (k', v) :: rest => if String.eqb k' k then Some v else dict_get k rest
  end.

(** [k in d]. *)
Definition dict_in (k : string) (d : dict) : bool :=
  existsb (fun kv => String.eqb (fst kv) k) d.

(** [del d[k]] for a key that is present: the binding goes, the other
    bindings keep their order. *)
Definition dict_del (k : string) (d : dict) : dict :=
  List.filter (fun kv => negb (String.eqb (fst kv) k)) d.

(** The value under [k] seen after the object it refers to was mutated in
    place: the binding keeps its position, and nothing is inserted when [k]
    is not a key. *)
Fixpoint dict_replace (k : string) (v : json) (d : dict) : dict :=
  match d with
  | [] => []
  | (k', v') :: rest =>
      if String.eqb k' k then (k', v) :: rest else (k', v') :: dict_replace k v rest
  end.

Definition dict_keys (d : dict) : list string := map fst d.

(** ** Strings *)

(** [needle in hay] for two strings: substring test. *)
Fixpoint str_contains (needle hay : string) : bool :=
  String.prefix needle hay
  || match hay with
     | EmptyString => false
     | String _ rest => str_contains needle rest
     end.

(** Iterating a string yields its characters as one-character strings.
    (A string is its bytes here; a character of several bytes is visited as
    several items, none of which contains [fixes] either.) *)
Fixpoint str_chars (s : string) : list string :=
  match s with
  | EmptyString => []
  | String c rest => String c EmptyString :: str_chars rest
  end.

Definition py_repr (s : string) : string := "'" ++ s ++ "'".

Definition str_of_nat (n : nat) : string :=
  NilEmpty.string_of_uint (Nat.to_uint n).

(** ** Exceptions *)

(** The subclasses of [Exception] that the script's calls raise. *)
Inductive exn : Type :=
| FileNotFoundError (filename : string)
| PermissionError (filename : string)
| SameFileError (src dst : string)
| JSONDecodeError (msg : string)
| AttributeError (msg : string)
| TypeError (msg : string)
| KeyError (key : string).

(** [str(e)], what [{e}] prints in an f-string. *)
Definition exn_str (e : exn) : string :=
  match e with
  | FileNotFoundError f => "[Errno 2] No such file or directory: " ++ py_repr f
  | PermissionError f => "[Errno 13] Permission denied: " ++ py_repr f
  | SameFileError s d => py_repr s ++ " and " ++ py_repr d ++ " are the same file"
  | JSONDecodeError m => m
  | AttributeError m => m
  | TypeError m => m
  | KeyError k => py_repr k
  end.

(** Computations that return or raise. *)
Definition res (A : Type) : Type := exn + A.

#[global] Instance res_ret : MRet res := fun A x => inr x.
#[global] Instance res_bind : MBind res := fun A B f m =>
  match m with
  | inl e => inl e
  | inr x => f x
  end.

(** ** The Python operations of the loop *)

(** [obj.get(key, default)]: only a dict has the method. *)
Definition py_get (obj : json) (key : string) (default : json) : res json :=
  match obj with
  | JObj d =>
      match dict_get key d with
      | Some v => inr v
      | None => inr default
      end
  | _ => inl (AttributeError (py_repr (type_name obj) ++ " object has no attribute 'get'"))
  end.

(** [for x in seq]: the items the loop visits.  A list yields its elements,
    a string its characters, a dict its keys; the other values are not
    iterable. *)
Definition py_iter (seq : json) : res (list json) :=
  match seq with
  | JArr items => inr items
  | JStr s => inr (map JStr (str_chars s))
  | JObj d => inr (map JStr (dict_keys d))
  | _ => inl (TypeError (py_repr (type_name seq) ++ " object is not iterable"))
  end.

(** [x == 'key'] for an element [x] of a list. *)
Definition py_eq_str (key : string) (x : json) : bool :=
  match x with
  | JStr s => String.eqb s key
  | _ => false
  end.

(** [key in container]: key membership for a dict, substring test for a
    string, element equality for a list. *)
Definition py_contains (key : string) (container : json) : res bool :=
  match container with
  | JObj d => inr (dict_in key d)
  | JStr s => inr (str_contains key s)
  | JArr items => inr (existsb (py_eq_str key) items)
  | _ => inl (TypeError ("argument of type " ++ py_repr (type_name container)
                         ++ " is not iterable"))
  end.

(** [del container[key]] with a string key. *)
Definition py_delitem (container : json) (key : string) : res json :=
  match container with
  | JObj d => if dict_in key d then inr (JObj (dict_del key d)) else inl (KeyError key)
  | JArr _ => inl (TypeError "list indices must be integers or slices, not str")
  | _ => inl (TypeError (py_repr (type_name container)
                         ++ " object doesn't support item deletion"))
  end.

(** A [for] loop over [items] whose body may mutate the item it visits and
    the counter, and may raise.  The list returned holds the items as the
    loop left them. *)
Fixpoint py_for (body : json -> nat -> res (json * nat))
    (items : list json) (fixed_count : nat) : res (list json * nat) :=
  match items with
  | [] => mret ([], fixed_count)
  | item :: rest =>
      '(item', c) ← body item fixed_count;
      '(rest', c') ← py_for body rest c;
      mret (item' :: rest', c')
  end.

(** The elements of a list are the objects themselves, so what the body did
    to them is seen through the list.  The characters of a string and the
    keys of a dict are immutable strings: the container is as it was. *)
Definition write_back (seq : json) (items' : list json) : json :=
  match seq with
  | JArr _ => JArr items'
  | _ => seq
  end.

(** The object [obj] after the value under [key] was mutated in place. *)
Definition set_field (obj : json) (key : string) (v : json) : json :=
  match obj with
  | JObj d => JObj (dict_replace key v d)
  | _ => obj
  end.

(** ** The loop of [fix_gosec_sarif] *)

(** Lines 34-36:
<<
    if 'fixes' in result:
        del result['fixes']
        fixed_count += 1
>> *)
Definition fix_result (result : json) (fixed_count : nat) : res (json * nat) :=
  b ← py_contains "fixes" result;
  if b : bool then
    result' ← py_delitem result "fixes";
    mret (result', S fixed_count)
  else mret (result, fixed_count).

(** Line 33: [for result in run.get('results', []): ...] *)
Definition fix_run (run : json) (fixed_count : nat) : res (json * nat) :=
  results ← py_get run "results" (JArr []);
  items ← py_iter results;
  '(items', c) ← py_for fix_result items fixed_count;
  mret (set_field run "results" (write_back results items'), c).

(** Lines 31-36: the counter starts at 0 and the outer loop runs over
    [data.get('runs', [])].  The result is the document as mutated and the
    final counter. *)
Definition fix_document (data : json) : res (json * nat) :=
  runs ← py_get data "runs" (JArr []);
  items ← py_iter runs;
  '(items', c) ← py_for fix_run items 0;
  mret (set_field data "runs" (write_back runs items'), c).

(** ** Files, streams and the process state *)

(** A file: its bytes and whether the process may read and write it. *)
Record file : Type := File {
  f_text : string;
  f_readable : bool;
  f_writable : bool
}.

(** The working directory: its files by name, and whether the process may
    create a new file in it. *)
Record filesystem : Type := FileSystem {
  fs_files : gmap string file;
  fs_can_create : bool
}.

(** The file operations the script attempts, logged whether or not they
    succeed. *)
Inductive io_op : Type :=
| OpenRead (path : string)
| OpenWrite (path : string)
| Copy (src dst : string).

Record world : Type := World {
  w_fs : filesystem;
  w_stdout : list string;
  w_stderr : list string;
  w_ops : list io_op
}.

(** What unwinds the stack: an [Exception], or the [SystemExit] of
    [sys.exit], which is a [BaseException] only and passes through
    [except Exception]. *)
Inductive signal : Type :=
| Exception (e : exn)
| SystemExit (code : Z).

Definition M (A : Type) : Type := world -> (signal + A) * world.

#[global] Instance M_ret : MRet M := fun A x w => (inr x, w).
#[global] Instance M_bind : MBind M := fun A B f m w =>
  match m w with
  | (inl s, w') => (inl s, w')
  | (inr x, w') => f x w'
  end.

Definition raise {A : Type} (e : exn) : M A := fun w => (inl (Exception e), w).

Definition sys_exit {A : Type} (code : Z) : M A := fun w => (inl (SystemExit code), w).

(** A pure step of the program, whose exception becomes a raised one. *)
Definition lift {A : Type} (r : res A) : M A := fun w =>
  match r with
  | inl e => (inl (Exception e), w)
  | inr x => (inr x, w)
  end.

(** [try: body / except Exception as e: handler e]. *)
Definition try_except {A : Type} (body : M A) (handler : exn -> M A) : M A := fun w =>
  match body w with
  | (inl (Exception e), w') => handler e w'
  | other => other
  end.

Definition log_op (op : io_op) : M unit := fun w =>
  (inr tt, World (w_fs w) (w_stdout w) (w_stderr w) (w_ops w ++ [op])).

Definition set_fs (fs : filesystem) : M unit := fun w =>
  (inr tt, World fs (w_stdout w) (w_stderr w) (w_ops w)).

Definition get_fs : M filesystem := fun w => (inr (w_fs w), w).

(** [print(line)] *)
Definition print (line : string) : M unit := fun w =>
  (inr tt, World (w_fs w) (w_stdout w ++ [line]) (w_stderr w) (w_ops w)).

(** [print(line, file=sys.stderr)] *)
Definition eprint (line : string) : M unit := fun w =>
  (inr tt, World (w_fs w) (w_stdout w) (w_stderr w ++ [line]) (w_ops w)).

(** Reading a whole file opened with mode ['r']. *)
Definition fs_read (fs : filesystem) (path : string) : res string :=
  match fs_files fs !! path with
  | None => inl (FileNotFoundError path)
  | Some f => if f_readable f then inr (f_text f) else inl (PermissionError path)
  end.

(** Opening with mode ['w'] and writing [text]: an existing file keeps its
    permissions and gets the new contents, a new file is created readable and
    writable. *)
Definition fs_write (fs : filesystem) (path text : string) : res filesystem :=
  match fs_files fs !! path with
  | Some f =>
      if f_writable f
      then inr (FileSystem (<[path := File text (f_readable f) (f_writable f)]> (fs_files fs))
                           (fs_can_create fs))
      else inl (PermissionError path)
  | None =>
      if fs_can_create fs
      then inr (FileSystem (<[path := File text true true]> (fs_files fs)) (fs_can_create fs))
      else inl (PermissionError path)
  end.

(** [shutil.copy(src, dst)]: refuses to copy a file onto itself, opens [src]
    for reading and then [dst] for writing, copies the bytes, and gives [dst]
    the permission bits of [src]. *)
Definition fs_copy (fs : filesystem) (src dst : string) : res filesystem :=
  match fs_files fs !! src with
  | None => inl (FileNotFoundError src)
  | Some f =>
      if String.eqb src dst then inl (SameFileError src dst)
      else
        text ← fs_read fs src;
        fs' ← fs_write fs dst text;
        mret (FileSystem (<[dst := File text (f_readable f) (f_writable f)]> (fs_files fs'))
                         (fs_can_create fs'))
  end.

(** [Path(path).exists()] *)
Definition path_exists (path : string) : M bool := fun w =>
  (inr (bool_decide (is_Some (fs_files (w_fs w) !! path))), w).

(** [with open(path, 'r') as f: ... f.read() ...] *)
Definition open_read (path : string) : M string :=
  log_op (OpenRead path);;
  fs ← get_fs;
  lift (fs_read fs path).

(** [with open(path, 'w') as f: f.write(text)] *)
Definition open_write (path text : string) : M unit :=
  log_op (OpenWrite path);;
  fs ← get_fs;
  fs' ← lift (fs_write fs path text);
  set_fs fs'.

Definition shutil_copy (src dst : string) : M unit :=
  log_op (Copy src dst);;
  fs ← get_fs;
  fs' ← lift (fs_copy fs src dst);
  set_fs fs'.

(** ** The [json] module *)

(** [json.load] on the text of a file, and [json.dump(_, indent=2)] of a
    document that [json.load] built, which always succeeds.  The module is the
    interpreter's, not the repository's: the script is modelled over any
    implementation of the two functions. *)
Class JsonLib : Type := {
  json_load : string -> res json;
  json_dump : json -> string
}.

(** ** The script *)

(** Lines 28-41, the [try] block: read and parse the input, run the loop,
    write the document, return the counter. *)
Definition fix_gosec_sarif_try `{JsonLib} (input_file output_file : string) : M nat :=
  text ← open_read input_file;
  data ← lift (json_load text);
  '(data', fixed_count) ← lift (fix_document data);
  open_write output_file (json_dump data');;
  mret fixed_count.

(** Lines 43-51, the handler: report, try the raw copy, report how that
    went, and re-raise [e]. *)
Definition fix_gosec_sarif_except (input_file output_file : string) (e : exn) : M nat :=
  eprint ("Error fixing SARIF: " ++ exn_str e);;
  try_except
    (shutil_copy input_file output_file;;
     eprint ("Copied raw file to " ++ output_file ++ " (may fail upload)"))
    (fun copy_error => eprint ("Failed to copy file: " ++ exn_str copy_error));;
  raise e.

(** Lines 16-51. *)
Definition fix_gosec_sarif `{JsonLib} (input_file output_file : string) : M nat :=
  try_except
    (fix_gosec_sarif_try input_file output_file)
    (fix_gosec_sarif_except input_file output_file).

(** Lines 54-68. *)
Definition main `{JsonLib} : M unit :=
  let input_file := "gosec-raw.sarif" in
  let output_file := "gosec.sarif" in
  found ← path_exists input_file;
  (if negb found
   then eprint ("Input file " ++ input_file ++ " not found");; sys_exit 1
   else mret tt);;
  try_except
    (fixed_count ← fix_gosec_sarif input_file output_file;
     print ("✅ Fixed gosec.sarif format (removed " ++ str_of_nat fixed_count
            ++ " invalid fixes fields)");;
     sys_exit 0)
    (fun e =>
       eprint ("❌ Failed to fix gosec.sarif: " ++ exn_str e);;
       sys_exit 1).

(** The exit status of the process that runs [main]: the code given to
    [sys.exit], 1 for an exception nobody caught (the interpreter reports it
    on standard error), 0 when [main] returns. *)
Definition run `{JsonLib} (w : world) : Z * world :=
  match main w with
  | (inl (SystemExit code), w') => (code, w')
  | (inl (Exception e), w') =>
      (1%Z, World (w_fs w') (w_stdout w') (w_stderr w' ++ [exn_str e]) (w_ops w'))
  | (inr tt, w') => (0%Z, w')
  end.

(** ** The document as the specification reads it *)

(** The [runs] of a document and the [results] of a run; an absent key
    stands for the empty sequence. *)
Definition runs_of (data : json) : list json :=
  match data with
  | JObj d => match dict_get "runs" d with Some (JArr runs) => runs | _ => [] end
  | _ => []
  end.

Definition results_of (run : json) : list json :=
  match run with
  | JObj d => match dict_get "results" d with Some (JArr results) => results | _ => [] end
  | _ => []
  end.

(** A result object that has the key [fixes]. *)
Definition has_fixes (result : json) : bool :=
  match result with
  | JObj d => dict_in "fixes" d
  | _ => false
  end.

(** The number of items of [l] that satisfy [p]. *)
Definition count_true {A : Type} (p : A -> bool) (l : list A) : nat :=
  length (List.filter p l).

(** The number of results of [run] that have [fixes]. *)
Definition run_fixes (run : json) : nat := count_true has_fixes (results_of run).

(** The number [k] of result objects, over all runs, that have [fixes]. *)
Definition count_fixes (data : json) : nat :=
  list_sum (map run_fixes (runs_of data)).

(** No result object of any run has the key [fixes]. *)
Definition no_fixes_left (data : json) : Prop :=
  Forall (fun run => Forall (fun result => has_fixes result = false) (results_of run))
         (runs_of data).

(** The document with [fixes] taken out of each result object and nothing
    else touched. *)
Definition strip_result (result : json) : json :=
  match result with
  | JObj d => JObj (dict_del "fixes" d)
  | _ => result
  end.

Definition strip_run (run : json) : json :=
  match run with
  | JObj d =>
      match dict_get "results" d with
      | Some (JArr results) => JObj (dict_replace "results" (JArr (map strip_result results)) d)
      | _ => run
      end
  | _ => run
  end.

Definition strip_document (data : json) : json :=
  match data with
  | JObj d =>
      match dict_get "runs" d with
      | Some (JArr runs) => JObj (dict_replace "runs" (JArr (map strip_run runs)) d)
      | _ => data
      end
  | _ => data
  end.

(** The shape of section 3: an object whose [runs], if present, is a
    sequence of objects, whose [results], if present, is a sequence of
    objects. *)
Definition is_object (v : json) : bool :=
  match v with
  | JObj _ => true
  | _ => false
  end.

(** A JSON array, the sequence of section 3. *)
Definition is_array (v : json) : bool :=
  match v with
  | JArr _ => true
  | _ => false
  end.

Definition absent_or_objects (key : string) (d : dict) : bool :=
  match dict_get key d with
  | None => true
  | Some (JArr items) => forallb is_object items
  | Some _ => false
  end.

Definition run_shaped (run : json) : bool :=
  match run with
  | JObj d => absent_or_objects "results" d
  | _ => false
  end.

Definition sarif_shaped (data : json) : bool :=
  match data with
  | JObj d => absent_or_objects "runs" d && forallb run_shaped (runs_of data)
  | _ => false
  end.

(** Values under [runs] that make the outer loop raise: what cannot be
    iterated, and a string or a dict with at least one item, whose items are
    strings without [.get]. *)
Definition runs_value_raises (v : json) : bool :=
  match v with
  | JNull | JBool _ | JInt _ | JFloat _ => true
  | JStr s => negb (String.eqb s EmptyString)
  | JObj d => negb (Nat.eqb (length d) 0)
  | JArr _ => false
  end.

(** Values under [results] that make the inner loop raise: what cannot be
    iterated, and a dict with a key that contains [fixes], which cannot be
    deleted from the key. *)
Definition results_value_raises (v : json) : bool :=
  match v with
  | JNull | JBool _ | JInt _ | JFloat _ => true
  | JStr _ => false
  | JObj d => existsb (str_contains "fixes") (dict_keys d)
  | JArr _ => false
  end.

(** ** When the loop returns *)

(** What a result adds to the counter. *)
Definition fixes_in (result : json) : nat := if has_fixes result then 1 else 0.

(** The items a [for] loop visits, for the values that can be iterated. *)
Definition iter_items (seq : json) : option (list json) :=
  match seq with
  | JArr items => Some items
  | JStr s => Some (map JStr (str_chars s))
  | JObj d => Some (map JStr (dict_keys d))
  | _ => None
  end.

(** The items on which lines 34-36 do not raise. *)
Definition result_passes (result : json) : bool :=
  match result with
  | JObj _ => true
  | JStr s => negb (str_contains "fixes" s)
  | JArr items => negb (existsb (py_eq_str "fixes") items)
  | _ => false
  end.

(** The loop over [d.get(key, [])] does not raise: the key is absent, or its
    value can be iterated and the body passes on every item. *)
Definition field_passes (item_passes : json -> bool) (key : string) (d : dict) : bool :=
  match dict_get key d with
  | None => true
  | Some v =>
      match iter_items v with
      | Some items => forallb item_passes items
      | None => false
      end
  end.

(** The runs on which the inner loop does not raise, and the documents on
    which the outer loop does not. *)
Definition run_passes (run : json) : bool :=
  match run with
  | JObj d => field_passes result_passes "results" d
  | _ => false
  end.

Definition document_passes (data : json) : bool :=
  match data with
  | JObj d => field_passes run_passes "runs" d
  | _ => false
  end.

(** ** What is preserved *)

(** A result and what it became: an object has lost [fixes] at most, its
    other keys are in the same order with the same values; anything else is
    as it was. *)
Definition result_frame (r r' : json) : Prop :=
  match r with
  | JObj d =>
      exists d', r' = JObj d' /\
        dict_keys d' = List.filter (fun k => negb (String.eqb k "fixes")) (dict_keys d) /\
        forall k, k <> "fixes" -> dict_get k d' = dict_get k d
  | _ => r' = r
  end.

(** An object and what it became when only the items of the sequence under
    [key] may have changed, each as [item_frame] allows: same keys in the same
    order, same values under the other keys, a sequence of the same length
    and order under [key]. *)
Definition field_frame (item_frame : json -> json -> Prop) (key : string) (d d' : dict) : Prop :=
  dict_keys d' = dict_keys d /\
  (forall k, k <> key -> dict_get k d' = dict_get k d) /\
  match dict_get key d with
  | Some (JArr items) =>
      exists items', dict_get key d' = Some (JArr items') /\ Forall2 item_frame items items'
  | other => dict_get key d' = other
  end.

Definition run_frame (run run' : json) : Prop :=
  match run with
  | JObj d => exists d', run' = JObj d' /\ field_frame result_frame "results" d d'
  | _ => run' = run
  end.

Definition document_frame (data data' : json) : Prop :=
  match data with
  | JObj d => exists d', data' = JObj d' /\ field_frame run_frame "runs" d d'
  | _ => data' = data
  end.

(** The number of items in the [results] of all runs. *)
Definition total_results (data : json) : nat :=
  list_sum (map (fun run => length (results_of run)) (runs_of data)).

(** ** What the file operations need *)

(** [open(path, 'w')] succeeds, [open(path, 'r')] succeeds, and the bytes of
    a file. *)
Definition can_write (fs : filesystem) (path : string) : bool :=
  match fs_files fs !! path with
  | Some f => f_writable f
  | None => fs_can_create fs
  end.

Definition can_read (fs : filesystem) (path : string) : bool :=
  match fs_files fs !! path with
  | Some f => f_readable f
  | None => false
  end.

Definition file_text (fs : filesystem) (path : string) : option string :=
  f_text <$> fs_files fs !! path.

(** The world after the operations [ops] were attempted. *)
Definition attempted (w : world) (ops : list io_op) : world :=
  World (w_fs w) (w_stdout w) (w_stderr w) (w_ops w ++ ops).

(** The world after the [try] block has run to its end and left the file
    system [fs']. *)
Definition written (w : world) (input_file output_file : string) (fs' : filesystem) : world :=
  World fs' (w_stdout w) (w_stderr w) (w_ops w ++ [OpenRead input_file; OpenWrite output_file]).

(** The world the handler leaves, from the world [w1] in which the [try]
    block raised [e]. *)
Definition recovered (w1 : world) (input_file output_file : string) (e : exn) : world :=
  match fs_copy (w_fs w1) input_file output_file with
  | inr fs' =>
      World fs' (w_stdout w1)
            (w_stderr w1 ++ ["Error fixing SARIF: " ++ exn_str e;
                             "Copied raw file to " ++ output_file ++ " (may fail upload)"])
            (w_ops w1 ++ [Copy input_file output_file])
  | inl copy_error =>
      World (w_fs w1) (w_stdout w1)
            (w_stderr w1 ++ ["Error fixing SARIF: " ++ exn_str e;
                             "Failed to copy file: " ++ exn_str copy_error])
            (w_ops w1 ++ [Copy input_file output_file])
  end.

(** JSON text written with ['] for the double quote. *)
Fixpoint json_text (s : string) : string :=
  match s with
  | EmptyString => EmptyString
  | String c rest =>
      String (if Ascii.eqb c "'" then ascii_of_nat 34 else c) (json_text rest)
  end.

(** ** A reference implementation of the [json] module

    [json.dump(_, indent=2)] with the default [ensure_ascii], and [json.load],
    for ASCII texts without fraction or exponent in numbers; other texts are
    rejected.  It is what the script is run with on concrete files below. *)
Module RefJson.

Definition dquote : ascii := ascii_of_nat 34.

Definition hex_digit (n : nat) : ascii :=
  match n with
  | 0 => "0" | 1 => "1" | 2 => "2" | 3 => "3" | 4 => "4" | 5 => "5" | 6 => "6"
  | 7 => "7" | 8 => "8" | 9 => "9" | 10 => "a" | 11 => "b" | 12 => "c"
  | 13 => "d" | 14 => "e" | _ => "f"
  end%char.

Definition escape_char (c : ascii) : string :=
  let n := nat_of_ascii c in
  if Nat.eqb n 34 then "\" ++ String dquote EmptyString
  else if Nat.eqb n 92 then "\\"
  else if Nat.eqb n 10 then "\n"
  else if Nat.eqb n 13 then "\r"
  else if Nat.eqb n 9 then "\t"
  else if Nat.eqb n 8 then "\b"
  else if Nat.eqb n 12 then "\f"
  else if (Nat.ltb n 32 || Nat.ltb 126 n)%bool
       then "\u00" ++ String (hex_digit (n / 16)) (String (hex_digit (n mod 16)) EmptyString)
       else String c EmptyString.

Fixpoint escape (s : string) : string :=
  match s with
  | EmptyString => EmptyString
  | String c rest => escape_char c ++ escape rest
  end.

Definition quote (s : string) : string :=
  String dquote (escape s ++ String dquote EmptyString).

Fixpoint spaces (n : nat) : string :=
  match n with
  | O => EmptyString
  | S n' => String " "%char (spaces n')
  end.

Definition newline : string := String (ascii_of_nat 10) EmptyString.

Definition dump_float (repr : string) : string :=
  if String.eqb repr "nan" then "NaN"
  else if String.eqb repr "inf" then "Infinity"
  else if String.eqb repr "-inf" then "-Infinity"
  else repr.

(** The items of a non-empty container, one per line at [level + 1]. *)
Definition bracket (open_ close : string) (level : nat) (lines : list string) : string :=
  match lines with
  | [] => open_ ++ close
  | _ =>
      open_ ++ newline ++ spaces (2 * S level)
      ++ String.concat ("," ++ newline ++ spaces (2 * S level)) lines
      ++ newline ++ spaces (2 * level) ++ close
  end.

Fixpoint dump_at (level : nat) (v : json) : string :=
  match v with
  | JNull => "null"
  | JBool true => "true"
  | JBool false => "false"
  | JInt n => NilZero.string_of_int (Z.to_int n)
  | JFloat repr => dump_float repr
  | JStr s => quote s
  | JArr items => bracket "[" "]" level (map (dump_at (S level)) items)
  | JObj members =>
      bracket "{" "}" level
        (map (fun kv => quote (fst kv) ++ ": " ++ dump_at (S level) (snd kv)) members)
  end.

Definition dump (v : json) : string := dump_at 0 v.

(** *** The parser *)

Definition is_ws (c : ascii) : bool :=
  let n := nat_of_ascii c in
  (Nat.eqb n 32 || Nat.eqb n 9 || Nat.eqb n 10 || Nat.eqb n 13)%bool.

Fixpoint skip_ws (s : string) : string :=
  match s with
  | String c rest => if is_ws c then skip_ws rest else s
  | EmptyString => s
  end.

Definition digit_val (c : ascii) : option Z :=
  let n := nat_of_ascii c in
  if (Nat.leb 48 n && Nat.leb n 57)%bool then Some (Z.of_nat (n - 48)) else None.

Definition hex_val (c : ascii) : option nat :=
  let n := nat_of_ascii c in
  if (Nat.leb 48 n && Nat.leb n 57)%bool then Some (n - 48)
  else if (Nat.leb 97 n && Nat.leb n 102)%bool then Some (n - 87)
  else if (Nat.leb 65 n && Nat.leb n 70)%bool then Some (n - 55)
  else None.

Definition bad (what : string) : exn := JSONDecodeError what.

(** The digits at the head of [s], accumulated on [acc]. *)
Fixpoint parse_digits (s : string) (acc : Z) : Z * string :=
  match s with
  | String c rest =>
      match digit_val c with
      | Some d => parse_digits rest (10 * acc + d)%Z
      | None => (acc, s)
      end
  | EmptyString => (acc, s)
  end.

Definition starts_fraction (s : string) : bool :=
  match s with
  | String c _ => (Ascii.eqb c "." || Ascii.eqb c "e" || Ascii.eqb c "E")%bool
  | EmptyString => false
  end.

(** [0] or a digit sequence that does not start with [0]; a fraction or an
    exponent is outside the fragment. *)
Definition parse_nat (s : string) : res (Z * string) :=
  match s with
  | String c rest =>
      match digit_val c with
      | Some d =>
          let '(n, rest') := if Z.eqb d 0 then (0%Z, rest) else parse_digits rest d in
          if starts_fraction rest' then inl (bad "float literals are not supported")
          else inr (n, rest')
      | None => inl (bad "Expecting value")
      end
  | EmptyString => inl (bad "Expecting value")
  end.

Definition parse_u4 (s : string) : res (ascii * string) :=
  match s with
  | String a (String b (String c (String d rest))) =>
      match hex_val a, hex_val b, hex_val c, hex_val d with
      | Some 0, Some 0, Some x, Some y =>
          if Nat.ltb (16 * x + y) 128 then inr (ascii_of_nat (16 * x + y), rest)
          else inl (bad "non-ASCII escapes are not supported")
      | Some _, Some _, Some _, Some _ => inl (bad "non-ASCII escapes are not supported")
      | _, _, _, _ => inl (bad "Invalid \uXXXX escape")
      end
  | _ => inl (bad "Invalid \uXXXX escape")
  end.

(** The characters up to the closing quote, after the opening one. *)
Fixpoint parse_string (fuel : nat) (s : string) : res (string * string) :=
  match fuel with
  | O => inl (bad "Unterminated string")
  | S fuel' =>
      match s with
      | EmptyString => inl (bad "Unterminated string")
      | String c rest =>
          let n := nat_of_ascii c in
          if Nat.eqb n 34 then inr (EmptyString, rest)
          else if Nat.eqb n 92 then
            match rest with
            | String e rest' =>
                '(ch, rest'') ←
                  (let m := nat_of_ascii e in
                   if Nat.eqb m 34 then inr (e, rest')
                   else if Nat.eqb m 92 then inr (e, rest')
                   else if Nat.eqb m 47 then inr (e, rest')
                   else if Nat.eqb m 98 then inr (ascii_of_nat 8, rest')
                   else if Nat.eqb m 102 then inr (ascii_of_nat 12, rest')
                   else if Nat.eqb m 110 then inr (ascii_of_nat 10, rest')
                   else if Nat.eqb m 114 then inr (ascii_of_nat 13, rest')
                   else if Nat.eqb m 116 then inr (ascii_of_nat 9, rest')
                   else if Nat.eqb m 117 then parse_u4 rest'
                   else inl (bad "Invalid \escape")) : res (ascii * string);
                '(tail, after) ← parse_string fuel' rest'';
                mret (String ch tail, after)
            | EmptyString => inl (bad "Unterminated string")
            end
          else if Nat.ltb n 32 then inl (bad "Invalid control character")
          else if Nat.ltb 127 n then inl (bad "non-ASCII text is not supported")
          else
            '(tail, after) ← parse_string fuel' rest;
            mret (String c tail, after)
      end
  end.

(** [d[k] = v] while the object is built: a repeated key keeps its place and
    takes the later value. *)
Definition dict_set (k : string) (v : json) (d : dict) : dict :=
  if dict_in k d then dict_replace k v d else (d ++ [(k, v)])%list.

Definition strip_prefix (p s : string) : option string :=
  if String.prefix p s then Some (String.substring (String.length p) (String.length s - String.length p) s)
  else None.

Fixpoint parse_value (fuel : nat) (s : string) {struct fuel} : res (json * string) :=
  match fuel with
  | O => inl (bad "maximum recursion depth exceeded")
  | S fuel' =>
      match skip_ws s with
      | String c rest =>
          let n := nat_of_ascii c in
          if Nat.eqb n 123 then
            match skip_ws rest with
            | String "}" rest' => inr (JObj [], rest')
            | _ => parse_members fuel' rest []
            end
          else if Nat.eqb n 91 then
            match skip_ws rest with
            | String "]" rest' => inr (JArr [], rest')
            | _ => parse_elements fuel' rest []
            end
          else if Nat.eqb n 34 then
            '(str, rest') ← parse_string (String.length rest) rest;
            mret (JStr str, rest')
          else if Nat.eqb n 45 then
            match strip_prefix "Infinity" rest with
            | Some rest' => inr (JFloat "-inf", rest')
            | None => '(m, rest') ← parse_nat rest; mret (JInt (- m), rest')
            end
          else
            match strip_prefix "null" (String c rest), strip_prefix "true" (String c rest),
                  strip_prefix "false" (String c rest), strip_prefix "NaN" (String c rest),
                  strip_prefix "Infinity" (String c rest) with
            | Some rest', _, _, _, _ => inr (JNull, rest')
            | _, Some rest', _, _, _ => inr (JBool true, rest')
            | _, _, Some rest', _, _ => inr (JBool false, rest')
            | _, _, _, Some rest', _ => inr (JFloat "nan", rest')
            | _, _, _, _, Some rest' => inr (JFloat "inf", rest')
            | _, _, _, _, _ => '(m, rest') ← parse_nat (String c rest); mret (JInt m, rest')
            end
      | EmptyString => inl (bad "Expecting value")
      end
  end
with parse_elements (fuel : nat) (s : string) (acc : list json) {struct fuel}
    : res (json * string) :=
  match fuel with
  | O => inl (bad "maximum recursion depth exceeded")
  | S fuel' =>
      '(v, rest) ← parse_value fuel' s;
      match skip_ws rest with
      | String "," rest' => parse_elements fuel' rest' (acc ++ [v])
      | String "]" rest' => inr (JArr (acc ++ [v]), rest')
      | _ => inl (bad "Expecting ',' delimiter")
      end
  end
with parse_members (fuel : nat) (s : string) (acc : dict) {struct fuel}
    : res (json * string) :=
  match fuel with
  | O => inl (bad "maximum recursion depth exceeded")
  | S fuel' =>
      match skip_ws s with
      | String q rest =>
          if negb (Ascii.eqb q dquote)
          then inl (bad "Expecting property name enclosed in double quotes")
          else
          '(k, rest1) ← parse_string (String.length rest) rest;
          match skip_ws rest1 with
          | String ":" rest2 =>
              '(v, rest3) ← parse_value fuel' rest2;
              match skip_ws rest3 with
              | String "," rest4 => parse_members fuel' rest4 (dict_set k v acc)
              | String "}" rest4 => inr (JObj (dict_set k v acc), rest4)
              | _ => inl (bad "Expecting ',' delimiter")
              end
          | _ => inl (bad "Expecting ':' delimiter")
          end
      | _ => inl (bad "Expecting property name enclosed in double quotes")
      end
  end.

Definition load (text : string) : res json :=
  '(v, rest) ← parse_value (2 * String.length text + 2) text;
  match skip_ws rest with
  | EmptyString => inr v
  | _ => inl (bad "Extra data")
  end.

#[global] Instance lib : JsonLib := {| json_load := load; json_dump := dump |}.

End RefJson.

(** ** Concrete files *)

(** A working directory that holds [files], in which files can be created,
    before the process has printed or opened anything. *)
Definition directory (files : list (string * file)) : world :=
  World (FileSystem (list_to_map files) true) [] [] [].

Definition plain_file (text : string) : file := File text true true.

(** The example of section 8, as text and as documents. *)
Definition example_input_text : string :=
  json_text "{'runs':[{'results':[{'ruleId':'G101','fixes':[{'description':'x'}]},{'ruleId':'G102'}]}]}".

Definition example_output_text : string :=
  json_text "{'runs':[{'results':[{'ruleId':'G101'},{'ruleId':'G102'}]}]}".

Definition example_input : json :=
  JObj [("runs", JArr [JObj [("results", JArr [
    JObj [("ruleId", JStr "G101"); ("fixes", JArr [JObj [("description", JStr "x")]])];
    JObj [("ruleId", JStr "G102")]])]])].

Definition example_output : json :=
  JObj [("runs", JArr [JObj [("results", JArr [
    JObj [("ruleId", JStr "G101")];
    JObj [("ruleId", JStr "G102")]])]])].

(** What [json.dump(_, indent=2)] prints for the example's output. *)
Definition example_output_pretty : string :=
  json_text "{
  'runs': [
    {
      'results': [
        {
          'ruleId': 'G101'
        },
        {
          'ruleId': 'G102'
        }
      ]
    }
  ]
}".

Definition example_world : world :=
  directory [("gosec-raw.sarif", plain_file example_input_text)].

(** The world after the script has run on the example. *)
Definition example_world_fixed `{JsonLib} : world :=
  written example_world "gosec-raw.sarif" "gosec.sarif"
    (FileSystem (<["gosec.sarif" := plain_file (json_dump example_output)]>
                   (fs_files (w_fs example_world))) true).

(** Files for the failure paths and for the keys that are absent or hold
    something else than a list. *)
Definition broken_world : world :=
  directory [("gosec-raw.sarif", plain_file "{not json")].

Definition locked_world : world :=
  directory [("gosec-raw.sarif", plain_file example_input_text);
             ("gosec.sarif", File "old" true false)].

Definition no_runs : dict := [("version", JStr "2.1.0")].

Definition no_runs_world : world :=
  directory [("gosec-raw.sarif", plain_file (json_text "{'version': '2.1.0'}"))].

Definition empty_object_runs_world : world :=
  directory [("gosec-raw.sarif", plain_file (json_text "{'runs': {}}"))].

Definition object_results_world : world :=
  directory [("gosec-raw.sarif",
              plain_file (json_text "{'runs': [{'results': {'note': 1}}]}"))].

Definition null_runs_world : world :=
  directory [("gosec-raw.sarif", plain_file (json_text "{'runs': null}"))].

Definition array_world : world :=
  directory [("gosec-raw.sarif", plain_file "[1, 2]")].

(** A document with [fixes] at the top level, on the run, inside a result's
    [properties], and on a result. *)
Definition fixes_everywhere : json :=
  JObj [("fixes", JInt 1);
        ("runs", JArr [JObj [("fixes", JInt 2);
                             ("results", JArr [
                                JObj [("ruleId", JStr "G1");
                                      ("properties", JObj [("fixes", JInt 3)])];
                                JObj [("fixes", JArr [])]])]])].

(** * Properties *)

(** ** Dictionaries *)

Lemma dict_in_del (k : string) (d : dict) : dict_in k (dict_del k d) = false.
Proof.
  induction d as [|[k' v'] d IH]; simpl; trivial.
  destruct (String.eqb k' k) eqn:E; simpl; trivial.
  rewrite E. exact IH.
Qed.

Lemma dict_del_absent (k : string) (d : dict) :
  dict_in k d = false -> dict_del k d = d.
Proof.
  induction d as [|[k' v'] d IH]; simpl; trivial.
  destruct (String.eqb k' k); simpl; [discriminate|].
  intros H. f_equal. auto.
Qed.

Lemma dict_get_del_other (k k' : string) (d : dict) :
  k' <> k -> dict_get k' (dict_del k d) = dict_get k' d.
Proof.
  intros Hne. induction d as [|[k0 v0] d IH]; simpl; trivial.
  destruct (String.eqb k0 k) eqn:E; simpl.
  - apply String.eqb_eq in E. subst k0.
    destruct (String.eqb k k') eqn:E'; trivial.
    apply String.eqb_eq in E'. congruence.
  - rewrite IH. reflexivity.
Qed.

Lemma dict_replace_absent (k : string) (v : json) (d : dict) :
  dict_get k d = None -> dict_replace k v d = d.
Proof.
  induction d as [|[k' v'] d IH]; simpl; trivial.
  destruct (String.eqb k' k); [discriminate|].
  intros H. f_equal. auto.
Qed.

Lemma dict_replace_same (k : string) (v : json) (d : dict) :
  dict_get k d = Some v -> dict_replace k v d = d.
Proof.
  induction d as [|[k' v'] d IH]; simpl; trivial.
  destruct (String.eqb k' k).
  - intros [= ->]. reflexivity.
  - intros H. f_equal. auto.
Qed.

Lemma dict_get_replace (k : string) (v v0 : json) (d : dict) :
  dict_get k d = Some v0 -> dict_get k (dict_replace k v d) = Some v.
Proof.
  induction d as [|[k' v'] d IH]; simpl; [discriminate|].
  destruct (String.eqb k' k) eqn:E; simpl; rewrite E; auto.
Qed.

Lemma dict_get_replace_other (k k' : string) (v : json) (d : dict) :
  k' <> k -> dict_get k' (dict_replace k v d) = dict_get k' d.
Proof.
  intros Hne. induction d as [|[k0 v0] d IH]; simpl; trivial.
  destruct (String.eqb k0 k) eqn:E; simpl.
  - apply String.eqb_eq in E. subst k0.
    destruct (String.eqb k k') eqn:E'; trivial.
    apply String.eqb_eq in E'. congruence.
  - rewrite IH. reflexivity.
Qed.

Lemma dict_keys_replace (k : string) (v : json) (d : dict) :
  dict_keys (dict_replace k v d) = dict_keys d.
Proof.
  induction d as [|[k' v'] d IH]; simpl; trivial.
  destruct (String.eqb k' k); simpl; [reflexivity|].
  f_equal. exact IH.
Qed.

Lemma dict_keys_del (k : string) (d : dict) :
  dict_keys (dict_del k d) = List.filter (fun k' => negb (String.eqb k' k)) (dict_keys d).
Proof.
  induction d as [|[k' v'] d IH]; simpl; trivial.
  destruct (String.eqb k' k); simpl; [exact IH|].
  f_equal. exact IH.
Qed.

(** ** The loop *)

Lemma count_true_sum (l : list json) :
  count_true has_fixes l = list_sum (map fixes_in l).
Proof.
  unfold count_true, fixes_in.
  induction l as [|x l IH]; simpl; trivial.
  destruct (has_fixes x); simpl; rewrite IH; reflexivity.
Qed.

(** A loop whose body, when it returns, has applied [f] to the item and
    added [g] of it to the counter. *)
Lemma py_for_returns (body : json -> nat -> res (json * nat))
    (f : json -> json) (g : json -> nat) :
  (forall x c x' c', body x c = inr (x', c') -> x' = f x /\ c' = c + g x) ->
  forall l c l' c',
    py_for body l c = inr (l', c') ->
    l' = map f l /\ c' = c + list_sum (map g l).
Proof.
  intros Hbody l. induction l as [|x l IH]; simpl; intros c l' c' H.
  - injection H as <- <-. split; [reflexivity | lia].
  - destruct (body x c) as [e|[x1 c1]] eqn:Hx; simpl in H; [discriminate|].
    destruct (py_for body l c1) as [e|[l1 c2]] eqn:Hl; simpl in H; [discriminate|].
    injection H as <- <-.
    apply Hbody in Hx as [-> ->]. apply IH in Hl as [-> ->].
    split; [reflexivity | lia].
Qed.

(** A loop whose body returns on every item that satisfies [P] returns on a
    list of such items. *)
Lemma py_for_total (body : json -> nat -> res (json * nat))
    (f : json -> json) (g : json -> nat) (P : json -> bool) :
  (forall x c, P x = true -> body x c = inr (f x, c + g x)) ->
  forall l c,
    forallb P l = true ->
    py_for body l c = inr (map f l, c + list_sum (map g l)).
Proof.
  intros Hbody l. induction l as [|x l IH]; simpl; intros c H.
  - do 2 f_equal. lia.
  - apply andb_true_iff in H as [Hx Hl].
    rewrite (Hbody x c Hx). simpl. rewrite (IH _ Hl). simpl.
    do 2 f_equal. lia.
Qed.

Lemma fix_result_object (d : dict) (c : nat) :
  fix_result (JObj d) c = inr (strip_result (JObj d), c + fixes_in (JObj d)).
Proof.
  unfold fix_result, fixes_in. simpl.
  destruct (dict_in "fixes" d) eqn:E; simpl.
  - do 2 f_equal. lia.
  - rewrite (dict_del_absent _ _ E). do 2 f_equal. lia.
Qed.

Lemma fix_result_returns (r : json) (c : nat) (r' : json) (c' : nat) :
  fix_result r c = inr (r', c') -> r' = strip_result r /\ c' = c + fixes_in r.
Proof.
  destruct r as [| b | n | f | s | items | d];
    try (rewrite fix_result_object; intros [= <- <-]; split; reflexivity);
    unfold fix_result, fixes_in; simpl; try discriminate.
  - destruct (str_contains "fixes" s); simpl; [discriminate|].
    intros [= <- <-]. split; [reflexivity | lia].
  - destruct (existsb (py_eq_str "fixes") items); simpl; [discriminate|].
    intros [= <- <-]. split; [reflexivity | lia].
Qed.

Lemma no_fixes_in_strings (l : list string) : list_sum (map fixes_in (map JStr l)) = 0.
Proof. induction l; simpl; trivial. Qed.

(** Whatever the run, a body that returns has stripped the results it
    holds and counted them. *)
Lemma fix_run_returns (run : json) (c : nat) (run' : json) (c' : nat) :
  fix_run run c = inr (run', c') -> run' = strip_run run /\ c' = c + run_fixes run.
Proof.
  unfold fix_run, run_fixes. rewrite count_true_sum.
  destruct run as [| | | | | |d]; simpl; try discriminate.
  assert (Hstr : forall l v, dict_get "results" d = Some v ->
            match py_for fix_result (map JStr l) c with
            | inl e => inl e
            | inr (items', c0) => inr (JObj (dict_replace "results" v d), c0)
            end = inr (run', c') -> run' = JObj d /\ c' = c + 0).
  { intros l v Hv H.
    destruct (py_for fix_result (map JStr l) c) as [e|[i1 c1]] eqn:E; [discriminate|].
    apply (py_for_returns _ _ _ fix_result_returns) in E as [-> ->].
    injection H as <- <-. rewrite (dict_replace_same _ _ _ Hv), no_fixes_in_strings.
    split; reflexivity. }
  destruct (dict_get "results" d) as [v|] eqn:Hget; simpl.
  - destruct v as [| | | | s | items | d']; simpl; try discriminate; eauto.
    destruct (py_for fix_result items c) as [e|[i1 c1]] eqn:E; simpl; [discriminate|].
    apply (py_for_returns _ _ _ fix_result_returns) in E as [-> ->].
    intros [= <- <-]. split; reflexivity.
  - intros [= <- <-]. rewrite (dict_replace_absent _ _ _ Hget). split; [reflexivity | lia].
Qed.

Lemma fix_run_shaped (run : json) (c : nat) :
  run_shaped run = true -> fix_run run c = inr (strip_run run, c + run_fixes run).
Proof.
  unfold fix_run, run_fixes, run_shaped, absent_or_objects. rewrite count_true_sum.
  destruct run as [| | | | | |d]; simpl; try discriminate.
  destruct (dict_get "results" d) as [v|] eqn:Hget; simpl.
  - destruct v as [| | | | | items |]; simpl; try discriminate.
    intros H.
    rewrite (py_for_total fix_result strip_result fixes_in is_object); trivial.
    intros [] c0; try discriminate. intros _. apply fix_result_object.
  - intros _. rewrite (dict_replace_absent _ _ _ Hget). do 2 f_equal. lia.
Qed.

(** Whatever the document, a loop that returns has stripped the document
    and counted its results that had [fixes]. *)
Lemma fix_document_returns (data data' : json) (n : nat) :
  fix_document data = inr (data', n) ->
  data' = strip_document data /\ n = count_fixes data.
Proof.
  unfold fix_document, count_fixes.
  destruct data as [| | | | | |d]; simpl; try discriminate.
  assert (Hstr : forall l v, dict_get "runs" d = Some v ->
            match py_for fix_run (map JStr l) 0 with
            | inl e => inl e
            | inr (items', c0) => inr (JObj (dict_replace "runs" v d), c0)
            end = inr (data', n) -> data' = JObj d /\ n = 0).
  { intros l v Hv H. destruct l as [|k l]; simpl in H.
    - injection H as <- <-. rewrite (dict_replace_same _ _ _ Hv). split; reflexivity.
    - discriminate. }
  destruct (dict_get "runs" d) as [v|] eqn:Hget; simpl.
  - destruct v as [| | | | s | items | d']; simpl; try discriminate; eauto.
    destruct (py_for fix_run items 0) as [e|[i1 c1]] eqn:E; simpl; [discriminate|].
    apply (py_for_returns _ _ _ fix_run_returns) in E as [-> ->].
    intros [= <- <-]. split; reflexivity.
  - intros [= <- <-]. rewrite (dict_replace_absent _ _ _ Hget). split; reflexivity.
Qed.

Lemma fix_document_shaped (data : json) :
  sarif_shaped data = true ->
  fix_document data = inr (strip_document data, count_fixes data).
Proof.
  unfold fix_document, count_fixes, sarif_shaped, absent_or_objects.
  destruct data as [| | | | | |d]; simpl; try discriminate.
  destruct (dict_get "runs" d) as [v|] eqn:Hget; simpl.
  - destruct v as [| | | | | items |]; simpl; try discriminate.
    intros H. apply andb_true_iff in H as [_ H].
    rewrite (py_for_total fix_run strip_run run_fixes run_shaped); trivial.
    intros x c Hx. apply fix_run_shaped, Hx.
  - intros _. rewrite (dict_replace_absent _ _ _ Hget). reflexivity.
Qed.

(** ** When the loop returns *)

Lemma py_iter_items (seq : json) :
  match iter_items seq with
  | Some items => py_iter seq = inr items
  | None => exists e, py_iter seq = inl e
  end.
Proof. destruct seq; simpl; eauto. Qed.

Lemma py_for_some_fails (body : json -> nat -> res (json * nat)) (P : json -> bool) :
  (forall x c, P x = false -> exists e, body x c = inl e) ->
  forall l c, forallb P l = false -> exists e, py_for body l c = inl e.
Proof.
  intros Hbody l. induction l as [|x l IH]; simpl; intros c H; [discriminate|].
  destruct (P x) eqn:Px; simpl in H.
  - destruct (body x c) as [e|[x1 c1]]; simpl; [eauto|].
    destruct (IH c1 H) as [e ->]. simpl. eauto.
  - destruct (Hbody x c Px) as [e ->]. simpl. eauto.
Qed.

Lemma fix_result_passes (r : json) (c : nat) :
  result_passes r = true -> fix_result r c = inr (strip_result r, c + fixes_in r).
Proof.
  destruct r as [| | | | s | items | d]; simpl; try discriminate;
    unfold fix_result, fixes_in; simpl.
  - intros H. apply negb_true_iff in H. rewrite H. simpl. do 2 f_equal. lia.
  - intros H. apply negb_true_iff in H. rewrite H. simpl. do 2 f_equal. lia.
  - intros _. apply fix_result_object.
Qed.

Lemma fix_result_fails (r : json) (c : nat) :
  result_passes r = false -> exists e, fix_result r c = inl e.
Proof.
  destruct r as [| | | | s | items | d]; simpl; try discriminate;
    unfold fix_result; simpl; eauto.
  - intros H. apply negb_false_iff in H. rewrite H. simpl. eauto.
  - intros H. apply negb_false_iff in H. rewrite H. simpl. eauto.
Qed.

(** The loop over the value of a field of [d], shared by the two levels. *)
Lemma field_loop_passes (body : json -> nat -> res (json * nat))
    (f : json -> json) (g : json -> nat) (P : json -> bool) (key : string) (d : dict) (c : nat) :
  (forall x c, P x = true -> body x c = inr (f x, c + g x)) ->
  field_passes P key d = true ->
  exists r,
    (results ← py_get (JObj d) key (JArr []);
     items ← py_iter results;
     '(items', c') ← py_for body items c;
     mret (set_field (JObj d) key (write_back results items'), c')) = inr r.
Proof.
  intros Hbody. unfold field_passes. simpl.
  destruct (dict_get key d) as [v|]; simpl; [|eauto].
  pose proof (py_iter_items v) as Hit.
  destruct (iter_items v) as [items|]; [|discriminate].
  intros Hall. rewrite Hit. simpl.
  rewrite (py_for_total body f g P Hbody _ _ Hall). simpl. eauto.
Qed.

Lemma field_loop_fails (body : json -> nat -> res (json * nat))
    (P : json -> bool) (key : string) (d : dict) (c : nat) :
  (forall x c, P x = false -> exists e, body x c = inl e) ->
  field_passes P key d = false ->
  exists e,
    (results ← py_get (JObj d) key (JArr []);
     items ← py_iter results;
     '(items', c') ← py_for body items c;
     mret (set_field (JObj d) key (write_back results items'), c')) = inl e.
Proof.
  intros Hbody. unfold field_passes. simpl.
  destruct (dict_get key d) as [v|]; simpl; [|discriminate].
  pose proof (py_iter_items v) as Hit.
  destruct (iter_items v) as [items|].
  - intros Hall. rewrite Hit. simpl.
    destruct (py_for_some_fails body P Hbody _ c Hall) as [e ->]. simpl. eauto.
  - intros _. destruct Hit as [e ->]. simpl. eauto.
Qed.

Lemma fix_run_passes (run : json) (c : nat) :
  run_passes run = true -> fix_run run c = inr (strip_run run, c + run_fixes run).
Proof.
  destruct run as [| | | | | |d]; simpl; try discriminate. intros H.
  destruct (field_loop_passes fix_result strip_result fixes_in result_passes
              "results" d c fix_result_passes H) as [[run' c'] Hr].
  change (fix_run (JObj d) c = inr (run', c')) in Hr.
  rewrite Hr. apply fix_run_returns in Hr as [-> ->]. reflexivity.
Qed.

Lemma fix_run_fails (run : json) (c : nat) :
  run_passes run = false -> exists e, fix_run run c = inl e.
Proof.
  destruct run as [| | | | | |d]; simpl; intros H;
    try (unfold fix_run; simpl; eauto; fail).
  exact (field_loop_fails fix_result result_passes "results" d c fix_result_fails H).
Qed.

Lemma fix_document_passes (data : json) :
  document_passes data = true ->
  fix_document data = inr (strip_document data, count_fixes data).
Proof.
  destruct data as [| | | | | |d]; simpl; try discriminate. intros H.
  destruct (field_loop_passes fix_run strip_run run_fixes run_passes
              "runs" d 0 fix_run_passes H) as [[data' n] Hr].
  change (fix_document (JObj d) = inr (data', n)) in Hr.
  rewrite Hr. apply fix_document_returns in Hr as [-> ->]. reflexivity.
Qed.

Lemma fix_document_fails (data : json) :
  document_passes data = false -> exists e, fix_document data = inl e.
Proof.
  destruct data as [| | | | | |d]; simpl; intros H;
    try (unfold fix_document; simpl; eauto; fail).
  exact (field_loop_fails fix_run run_passes "runs" d 0 fix_run_fails H).
Qed.

Lemma fix_document_returns_passes (data : json) (r : json * nat) :
  fix_document data = inr r -> document_passes data = true.
Proof.
  intros H. destruct (document_passes data) eqn:E; trivial.
  destruct (fix_document_fails data E) as [e He]. congruence.
Qed.

(** A document of the shape of section 3 is one on which the loop
    returns. *)
Lemma run_shaped_passes (run : json) : run_shaped run = true -> run_passes run = true.
Proof.
  destruct run as [| | | | | |d]; simpl; try discriminate.
  unfold absent_or_objects, field_passes.
  destruct (dict_get "results" d) as [[| | | | | items |]|]; simpl; try discriminate; trivial.
  induction items as [|x l IH]; simpl; trivial.
  intros H. apply andb_true_iff in H as [Hx Hl]. rewrite (IH Hl).
  destruct x; try discriminate. reflexivity.
Qed.

Lemma sarif_shaped_passes (data : json) :
  sarif_shaped data = true -> document_passes data = true.
Proof.
  destruct data as [| | | | | |d]; simpl; try discriminate.
  unfold absent_or_objects, field_passes.
  destruct (dict_get "runs" d) as [[| | | | | items |]|]; simpl; try discriminate; trivial.
  intros H. apply andb_true_iff in H as [_ H].
  induction items as [|x l IH]; simpl in *; trivial.
  apply andb_true_iff in H as [Hx Hl]. rewrite (run_shaped_passes _ Hx), (IH Hl). reflexivity.
Qed.

(** ** The stripped document *)

Lemma dict_replace_twice (k : string) (v v' : json) (d : dict) :
  dict_replace k v' (dict_replace k v d) = dict_replace k v' d.
Proof.
  induction d as [|[k0 v0] d IH]; simpl; trivial.
  destruct (String.eqb k0 k) eqn:E; simpl; rewrite E; [reflexivity|].
  f_equal. exact IH.
Qed.

Lemma has_fixes_strip (r : json) : has_fixes (strip_result r) = false.
Proof. destruct r; simpl; trivial. apply dict_in_del. Qed.

Lemma strip_result_twice (r : json) : strip_result (strip_result r) = strip_result r.
Proof.
  destruct r; simpl; trivial. f_equal.
  apply dict_del_absent, dict_in_del.
Qed.

Lemma result_passes_strip (r : json) : result_passes (strip_result r) = result_passes r.
Proof. destruct r; reflexivity. Qed.

Lemma results_of_strip (run : json) :
  results_of (strip_run run) = map strip_result (results_of run).
Proof.
  destruct run as [| | | | | |d]; simpl; trivial.
  destruct (dict_get "results" d) as [v|] eqn:Hget; simpl; [|rewrite Hget; reflexivity].
  destruct v; simpl; rewrite ?Hget; trivial.
  rewrite (dict_get_replace _ _ _ _ Hget). reflexivity.
Qed.

Lemma runs_of_strip (data : json) :
  runs_of (strip_document data) = map strip_run (runs_of data).
Proof.
  destruct data as [| | | | | |d]; simpl; trivial.
  destruct (dict_get "runs" d) as [v|] eqn:Hget; simpl; [|rewrite Hget; reflexivity].
  destruct v; simpl; rewrite ?Hget; trivial.
  rewrite (dict_get_replace _ _ _ _ Hget). reflexivity.
Qed.

Lemma run_fixes_strip (run : json) : run_fixes (strip_run run) = 0.
Proof.
  unfold run_fixes. rewrite results_of_strip, count_true_sum.
  induction (results_of run) as [|r l IH]; simpl; trivial.
  unfold fixes_in at 1. rewrite has_fixes_strip. exact IH.
Qed.

Lemma count_fixes_strip (data : json) : count_fixes (strip_document data) = 0.
Proof.
  unfold count_fixes. rewrite runs_of_strip.
  induction (runs_of data) as [|r l IH]; simpl; trivial.
  rewrite run_fixes_strip. exact IH.
Qed.

Lemma no_fixes_left_strip (data : json) : no_fixes_left (strip_document data).
Proof.
  unfold no_fixes_left. rewrite runs_of_strip.
  apply List.Forall_forall. intros run' Hrun.
  apply in_map_iff in Hrun as [run [<- _]]. rewrite results_of_strip.
  apply List.Forall_forall. intros r' Hr.
  apply in_map_iff in Hr as [r [<- _]]. apply has_fixes_strip.
Qed.

Lemma strip_run_twice (run : json) : strip_run (strip_run run) = strip_run run.
Proof.
  destruct run as [| | | | | |d]; simpl; trivial.
  destruct (dict_get "results" d) as [v|] eqn:Hget; simpl; [|rewrite Hget; reflexivity].
  destruct v; simpl; rewrite ?Hget; trivial.
  rewrite (dict_get_replace _ _ _ _ Hget), dict_replace_twice, map_map.
  do 3 f_equal. apply map_ext, strip_result_twice.
Qed.

Lemma strip_document_twice (data : json) :
  strip_document (strip_document data) = strip_document data.
Proof.
  destruct data as [| | | | | |d]; simpl; trivial.
  destruct (dict_get "runs" d) as [v|] eqn:Hget; simpl; [|rewrite Hget; reflexivity].
  destruct v; simpl; rewrite ?Hget; trivial.
  rewrite (dict_get_replace _ _ _ _ Hget), dict_replace_twice, map_map.
  do 3 f_equal. apply map_ext, strip_run_twice.
Qed.

Lemma forallb_map_same {A : Type} (P : A -> bool) (f : A -> A) (l : list A) :
  (forall x, P x = true -> P (f x) = true) ->
  forallb P l = true -> forallb P (map f l) = true.
Proof.
  intros Hf. induction l as [|x l IH]; simpl; trivial.
  intros H. apply andb_true_iff in H as [Hx Hl].
  rewrite (Hf _ Hx), (IH Hl). reflexivity.
Qed.

Lemma run_passes_strip (run : json) :
  run_passes run = true -> run_passes (strip_run run) = true.
Proof.
  destruct run as [| | | | | |d]; simpl; trivial. unfold field_passes.
  destruct (dict_get "results" d) as [v|] eqn:Hget; simpl;
    [|unfold field_passes; rewrite Hget; reflexivity].
  destruct v; simpl; unfold field_passes; rewrite ?Hget; trivial.
  rewrite (dict_get_replace _ _ _ _ Hget). simpl.
  apply forallb_map_same. intros x Hx. rewrite result_passes_strip. exact Hx.
Qed.

Lemma document_passes_strip (data : json) :
  document_passes data = true -> document_passes (strip_document data) = true.
Proof.
  destruct data as [| | | | | |d]; simpl; trivial. unfold field_passes.
  destruct (dict_get "runs" d) as [v|] eqn:Hget; simpl;
    [|unfold field_passes; rewrite Hget; reflexivity].
  destruct v; simpl; unfold field_passes; rewrite ?Hget; trivial.
  rewrite (dict_get_replace _ _ _ _ Hget). simpl.
  apply forallb_map_same. exact run_passes_strip.
Qed.

(** Running the loop on its own result changes nothing and counts
    nothing. *)
Lemma fix_document_again (data data' : json) (n : nat) :
  fix_document data = inr (data', n) -> fix_document data' = inr (data', 0).
Proof.
  intros H. pose proof (fix_document_returns_passes _ _ H) as Hp.
  apply fix_document_returns in H as [-> ->].
  rewrite (fix_document_passes _ (document_passes_strip _ Hp)).
  rewrite strip_document_twice, count_fixes_strip. reflexivity.
Qed.

(** ** The file system *)

Lemma fs_write_can (fs : filesystem) (path text : string) :
  can_write fs path = true ->
  exists fs', fs_write fs path text = inr fs' /\ file_text fs' path = Some text.
Proof.
  unfold can_write, fs_write, file_text.
  destruct (fs_files fs !! path) as [f|]; intros ->; eexists; (split; [reflexivity|]);
    simpl; rewrite lookup_insert_eq; reflexivity.
Qed.

Lemma fs_write_text (fs fs' : filesystem) (path text : string) :
  fs_write fs path text = inr fs' ->
  file_text fs' path = Some text /\
  forall other, other <> path -> fs_files fs' !! other = fs_files fs !! other.
Proof.
  unfold fs_write, file_text.
  destruct (fs_files fs !! path) as [f|];
    [destruct (f_writable f) | destruct (fs_can_create fs)]; intros [= <-]; simpl;
    (split; [rewrite lookup_insert_eq; reflexivity
            | intros other Hne; rewrite lookup_insert_ne; [reflexivity | congruence]]).
Qed.

Lemma fs_write_cannot (fs : filesystem) (path text : string) :
  can_write fs path = false -> fs_write fs path text = inl (PermissionError path).
Proof.
  unfold can_write, fs_write.
  destruct (fs_files fs !! path) as [f|]; intros ->; reflexivity.
Qed.

(** A copy that succeeds leaves at [dst] the bytes of [src]. *)
Lemma fs_copy_text (fs fs' : filesystem) (src dst : string) :
  fs_copy fs src dst = inr fs' ->
  src <> dst /\ is_Some (file_text fs src) /\ file_text fs' dst = file_text fs src /\
  forall other, other <> dst -> fs_files fs' !! other = fs_files fs !! other.
Proof.
  unfold fs_copy, file_text, fs_read.
  destruct (fs_files fs !! src) as [f|] eqn:Hsrc; [|discriminate].
  destruct (String.eqb src dst) eqn:E; [discriminate|].
  apply String.eqb_neq in E.
  destruct (f_readable f); simpl; [|discriminate].
  destruct (fs_write fs dst (f_text f)) as [e|fs1] eqn:Hw; simpl; [discriminate|].
  intros [= <-]. simpl. apply fs_write_text in Hw as [_ Hother].
  split; [exact E|]. split; [eexists; reflexivity|].
  split; [rewrite lookup_insert_eq; reflexivity|].
  intros other Hne. rewrite lookup_insert_ne; [auto | congruence].
Qed.

(** ** The script over any [json] implementation *)

(** Unfolding the operations of [M] down to functions on the world. *)
Ltac unfold_M :=
  unfold open_read, open_write, shutil_copy, path_exists, try_except, raise, sys_exit,
    print, eprint, lift, log_op, get_fs, set_fs, mbind, M_bind, mret, M_ret;
  simpl.

Section Script.
Context `{JsonLib}.

(** The [try] block, step by step. *)
Lemma fix_gosec_sarif_try_steps (input_file output_file : string) (w : world) :
  fix_gosec_sarif_try input_file output_file w =
  match fs_read (w_fs w) input_file with
  | inl e => (inl (Exception e), attempted w [OpenRead input_file])
  | inr text =>
      match json_load text with
      | inl e => (inl (Exception e), attempted w [OpenRead input_file])
      | inr data =>
          match fix_document data with
          | inl e => (inl (Exception e), attempted w [OpenRead input_file])
          | inr (data', n) =>
              match fs_write (w_fs w) output_file (json_dump data') with
              | inl e =>
                  (inl (Exception e),
                   attempted w [OpenRead input_file; OpenWrite output_file])
              | inr fs' => (inr n, written w input_file output_file fs')
              end
          end
      end
  end.
Proof.
  unfold fix_gosec_sarif_try, attempted, written. unfold_M.
  destruct (fs_read (w_fs w) input_file) as [e|text]; [reflexivity|].
  destruct (json_load text) as [e|data]; [reflexivity|].
  destruct (fix_document data) as [e|[data' n]]; [reflexivity|]. simpl.
  rewrite <- app_assoc. simpl.
  destruct (fs_write (w_fs w) output_file (json_dump data')) as [e|fs']; reflexivity.
Qed.

(** The [try] block never leaves by [sys.exit], and when it raises the
    file system is as it was. *)
Lemma fix_gosec_sarif_try_raises (input_file output_file : string) (w w1 : world) (s : signal) :
  fix_gosec_sarif_try input_file output_file w = (inl s, w1) ->
  (exists e, s = Exception e) /\ w_fs w1 = w_fs w /\
  w_stdout w1 = w_stdout w /\ w_stderr w1 = w_stderr w /\
  (w_ops w1 = (w_ops w ++ [OpenRead input_file])%list \/
   w_ops w1 = (w_ops w ++ [OpenRead input_file; OpenWrite output_file])%list).
Proof.
  rewrite fix_gosec_sarif_try_steps.
  destruct (fs_read (w_fs w) input_file) as [e|text].
  { intros [= <- <-]. simpl. eauto 10. }
  destruct (json_load text) as [e|data].
  { intros [= <- <-]. simpl. eauto 10. }
  destruct (fix_document data) as [e|[data' n]].
  { intros [= <- <-]. simpl. eauto 10. }
  destruct (fs_write (w_fs w) output_file (json_dump data')) as [e|fs']; [|discriminate].
  intros [= <- <-]. simpl. eauto 10.
Qed.

(** Two ways for the [try] block to raise: the text is not JSON, the
    output cannot be written. *)
Lemma invalid_json_raises (input_file output_file text : string) (w : world) (e : exn) :
  fs_read (w_fs w) input_file = inr text ->
  json_load text = inl e ->
  fix_gosec_sarif_try input_file output_file w
  = (inl (Exception e), attempted w [OpenRead input_file]).
Proof.
  intros Hread Hload. rewrite fix_gosec_sarif_try_steps, Hread, Hload. reflexivity.
Qed.

Lemma unwritable_output_raises (input_file output_file text : string) (w : world)
    (data data' : json) (n : nat) :
  fs_read (w_fs w) input_file = inr text ->
  json_load text = inr data ->
  fix_document data = inr (data', n) ->
  can_write (w_fs w) output_file = false ->
  fix_gosec_sarif_try input_file output_file w
  = (inl (Exception (PermissionError output_file)),
     attempted w [OpenRead input_file; OpenWrite output_file]).
Proof.
  intros Hread Hload Hdoc Hcan.
  rewrite fix_gosec_sarif_try_steps, Hread, Hload, Hdoc, (fs_write_cannot _ _ _ Hcan).
  reflexivity.
Qed.

(** The handler ends by raising [e] again, in the world [recovered]. *)
Lemma fix_gosec_sarif_except_steps (input_file output_file : string) (e : exn) (w1 : world) :
  fix_gosec_sarif_except input_file output_file e w1 =
  (inl (Exception e), recovered w1 input_file output_file e).
Proof.
  unfold fix_gosec_sarif_except, recovered. unfold_M.
  destruct (fs_copy (w_fs w1) input_file output_file) as [ce|fs']; simpl;
    rewrite <- app_assoc; reflexivity.
Qed.

Lemma fix_gosec_sarif_returns (input_file output_file : string) (w w' : world) (n : nat) :
  fix_gosec_sarif_try input_file output_file w = (inr n, w') ->
  fix_gosec_sarif input_file output_file w = (inr n, w').
Proof. unfold fix_gosec_sarif, try_except. intros ->. reflexivity. Qed.

Lemma fix_gosec_sarif_raises (input_file output_file : string) (w w1 : world) (e : exn) :
  fix_gosec_sarif_try input_file output_file w = (inl (Exception e), w1) ->
  fix_gosec_sarif input_file output_file w =
  (inl (Exception e), recovered w1 input_file output_file e).
Proof.
  unfold fix_gosec_sarif, try_except. intros ->.
  apply fix_gosec_sarif_except_steps.
Qed.

(** [fix_gosec_sarif] returns, or raises an exception after the handler has
    run; it does not exit. *)
Lemma fix_gosec_sarif_outcome (input_file output_file : string) (w : world) :
  (exists n w', fix_gosec_sarif_try input_file output_file w = (inr n, w') /\
                fix_gosec_sarif input_file output_file w = (inr n, w')) \/
  (exists e w1, fix_gosec_sarif_try input_file output_file w = (inl (Exception e), w1) /\
                fix_gosec_sarif input_file output_file w =
                (inl (Exception e), recovered w1 input_file output_file e)).
Proof.
  destruct (fix_gosec_sarif_try input_file output_file w) as [[s|n] w1] eqn:Htry.
  - destruct (fix_gosec_sarif_try_raises _ _ _ _ _ Htry) as [[e ->] _].
    right. exists e, w1. split; [reflexivity|]. apply fix_gosec_sarif_raises, Htry.
  - left. exists n, w1. split; [reflexivity|]. apply fix_gosec_sarif_returns, Htry.
Qed.

(** When the whole input is in order the function returns the counter and
    the output holds the dumped document. *)
Lemma fix_gosec_sarif_written (input_file output_file text : string) (w : world)
    (data data' : json) (n : nat) (fs' : filesystem) :
  fs_read (w_fs w) input_file = inr text ->
  json_load text = inr data ->
  fix_document data = inr (data', n) ->
  fs_write (w_fs w) output_file (json_dump data') = inr fs' ->
  fix_gosec_sarif input_file output_file w = (inr n, written w input_file output_file fs').
Proof.
  intros Hread Hload Hfix Hwrite. apply fix_gosec_sarif_returns.
  rewrite fix_gosec_sarif_try_steps, Hread, Hload, Hfix, Hwrite. reflexivity.
Qed.

(** What a returning call has done. *)
Lemma fix_gosec_sarif_returned (input_file output_file text : string) (w w' : world)
    (data : json) (n : nat) :
  fs_read (w_fs w) input_file = inr text ->
  json_load text = inr data ->
  fix_gosec_sarif input_file output_file w = (inr n, w') ->
  exists data' fs',
    fix_document data = inr (data', n) /\
    fs_write (w_fs w) output_file (json_dump data') = inr fs' /\
    w' = written w input_file output_file fs'.
Proof.
  intros Hread Hload Hfix.
  destruct (fix_gosec_sarif_outcome input_file output_file w)
    as [(n0 & w0 & Htry & Heq)|(e & w1 & _ & Heq)]; rewrite Heq in Hfix; [|discriminate].
  injection Hfix as -> ->.
  rewrite fix_gosec_sarif_try_steps, Hread, Hload in Htry.
  destruct (fix_document data) as [e|[data' n0]]; [discriminate|].
  destruct (fs_write (w_fs w) output_file (json_dump data')) as [e|fs'] eqn:Hw; [discriminate|].
  injection Htry as -> <-. eauto.
Qed.

(** Exactly when the call returns. *)
Lemma fix_gosec_sarif_returns_iff (input_file output_file text : string) (w : world)
    (data : json) :
  fs_read (w_fs w) input_file = inr text ->
  json_load text = inr data ->
  (exists n w', fix_gosec_sarif input_file output_file w = (inr n, w')) <->
  document_passes data = true /\ can_write (w_fs w) output_file = true.
Proof.
  intros Hread Hload. split.
  - intros (n & w' & Hfix).
    destruct (fix_gosec_sarif_returned _ _ _ _ _ _ _ Hread Hload Hfix)
      as (data' & fs' & Hdoc & Hwrite & _).
    split; [exact (fix_document_returns_passes _ _ Hdoc)|].
    destruct (can_write (w_fs w) output_file) eqn:Hcan; trivial.
    rewrite (fs_write_cannot _ _ _ Hcan) in Hwrite. discriminate.
  - intros [Hpass Hcan].
    destruct (fs_write_can _ _ (json_dump (strip_document data)) Hcan) as (fs' & Hwrite & _).
    do 2 eexists.
    apply (fix_gosec_sarif_written _ _ _ _ _ _ _ _ Hread Hload
             (fix_document_passes _ Hpass) Hwrite).
Qed.

(** [main] when the input file is there. *)
Lemma main_steps_found (w : world) :
  is_Some (fs_files (w_fs w) !! "gosec-raw.sarif") ->
  run w =
  match fix_gosec_sarif "gosec-raw.sarif" "gosec.sarif" w with
  | (inr n, w') =>
      (0%Z, World (w_fs w') (w_stdout w' ++
                    ["✅ Fixed gosec.sarif format (removed " ++ str_of_nat n
                     ++ " invalid fixes fields)"])
                  (w_stderr w') (w_ops w'))
  | (inl (Exception e), w') =>
      (1%Z, World (w_fs w') (w_stdout w')
                  (w_stderr w' ++ ["❌ Failed to fix gosec.sarif: " ++ exn_str e])
                  (w_ops w'))
  | (inl (SystemExit code), w') => (code, w')
  end.
Proof.
  intros Hfound. unfold run, main. unfold_M.
  rewrite (bool_decide_eq_true_2 _ Hfound). simpl.
  destruct (fix_gosec_sarif "gosec-raw.sarif" "gosec.sarif" w) as [[[e|code]|n] w'];
    reflexivity.
Qed.

(** [main] when it is not. *)
Lemma main_steps_missing (w : world) :
  fs_files (w_fs w) !! "gosec-raw.sarif" = None ->
  run w = (1%Z, World (w_fs w) (w_stdout w)
                      (w_stderr w ++ ["Input file gosec-raw.sarif not found"]) (w_ops w)).
Proof.
  intros Hnone. unfold run, main. unfold_M.
  rewrite bool_decide_eq_false_2; [reflexivity|].
  rewrite Hnone. intros [x Hx]. discriminate.
Qed.

End Script.

(** ** The frame *)

Lemma result_frame_strip (r : json) : result_frame r (strip_result r).
Proof.
  destruct r as [| | | | | |d]; simpl; trivial.
  exists (dict_del "fixes" d). split; [reflexivity|].
  split; [apply dict_keys_del|].
  intros k Hk. apply dict_get_del_other, Hk.
Qed.

Lemma Forall2_map_frame (R : json -> json -> Prop) (f : json -> json) (l : list json) :
  (forall x, R x (f x)) -> Forall2 R l (map f l).
Proof. intros Hf. induction l; simpl; constructor; auto. Qed.

Lemma field_frame_same (R : json -> json -> Prop) (key : string) (d : dict) :
  match dict_get key d with Some (JArr _) => False | _ => True end ->
  field_frame R key d d.
Proof.
  intros Hk. unfold field_frame. split; [reflexivity|]. split; [reflexivity|].
  destruct (dict_get key d) as [[]|]; try reflexivity. destruct Hk.
Qed.

Lemma field_frame_replace (R : json -> json -> Prop) (f : json -> json)
    (key : string) (d : dict) (items : list json) :
  (forall x, R x (f x)) ->
  dict_get key d = Some (JArr items) ->
  field_frame R key d (dict_replace key (JArr (map f items)) d).
Proof.
  intros Hf Hget. unfold field_frame. split; [apply dict_keys_replace|].
  split; [intros k Hk; apply dict_get_replace_other, Hk|].
  rewrite Hget. exists (map f items).
  split; [apply (dict_get_replace _ _ _ _ Hget) | apply Forall2_map_frame, Hf].
Qed.

Lemma run_frame_strip (run : json) : run_frame run (strip_run run).
Proof.
  destruct run as [| | | | | |d]; simpl; trivial.
  destruct (dict_get "results" d) as [v|] eqn:Hget.
  - destruct v; try (exists d; split; [reflexivity|];
                     apply field_frame_same; rewrite Hget; exact I).
    eexists. split; [reflexivity|].
    apply field_frame_replace; [exact result_frame_strip | exact Hget].
  - exists d. split; [reflexivity|]. apply field_frame_same. rewrite Hget. exact I.
Qed.

Lemma document_frame_strip (data : json) : document_frame data (strip_document data).
Proof.
  destruct data as [| | | | | |d]; simpl; trivial.
  destruct (dict_get "runs" d) as [v|] eqn:Hget.
  - destruct v; try (exists d; split; [reflexivity|];
                     apply field_frame_same; rewrite Hget; exact I).
    eexists. split; [reflexivity|].
    apply field_frame_replace; [exact run_frame_strip | exact Hget].
  - exists d. split; [reflexivity|]. apply field_frame_same. rewrite Hget. exact I.
Qed.

(** ** Values that are not sequences *)

Lemma one_char_has_no_fixes (c : ascii) : str_contains "fixes" (String c EmptyString) = false.
Proof.
  destruct c as [[] [] [] [] [] [] [] []]; vm_compute; reflexivity.
Qed.

Lemma chars_pass (s : string) : forallb result_passes (map JStr (str_chars s)) = true.
Proof.
  induction s as [|c s IH]; trivial.
  change (negb (str_contains "fixes" (String c EmptyString))
          && forallb result_passes (map JStr (str_chars s)) = true).
  rewrite one_char_has_no_fixes, IH. reflexivity.
Qed.

Lemma keys_with_fixes_fail (keys : list string) :
  forallb result_passes (map JStr keys) = negb (existsb (str_contains "fixes") keys).
Proof.
  induction keys as [|k keys IH]; trivial.
  change (negb (str_contains "fixes" k) && forallb result_passes (map JStr keys)
          = negb (str_contains "fixes" k || existsb (str_contains "fixes") keys)).
  rewrite IH, negb_orb. reflexivity.
Qed.

Lemma runs_value_raises_fails (d : dict) (v : json) :
  dict_get "runs" d = Some v -> runs_value_raises v = true ->
  document_passes (JObj d) = false.
Proof.
  intros Hget Hv. simpl. unfold field_passes. rewrite Hget.
  destruct v as [| | | | s | items | d']; simpl in *; trivial; try discriminate.
  - destruct s; [discriminate | reflexivity].
  - destruct d' as [|[k x] d']; [discriminate | reflexivity].
Qed.

Lemma results_value_raises_fails (d : dict) (v : json) :
  dict_get "results" d = Some v -> results_value_raises v = true ->
  run_passes (JObj d) = false.
Proof.
  intros Hget Hv. simpl. unfold field_passes. rewrite Hget.
  destruct v as [| | | | s | items | d']; simpl in *; trivial; try discriminate.
  rewrite keys_with_fixes_fail, Hv. reflexivity.
Qed.

Lemma forallb_false_in {A : Type} (P : A -> bool) (x : A) (l : list A) :
  In x l -> P x = false -> forallb P l = false.
Proof.
  induction l as [|y l IH]; simpl; [tauto|].
  intros [->|Hin] Hx; [rewrite Hx; reflexivity|].
  rewrite (IH Hin Hx). apply andb_false_r.
Qed.

Lemma bad_results_fail (d rd : dict) (runs : list json) (v : json) :
  dict_get "runs" d = Some (JArr runs) -> In (JObj rd) runs ->
  dict_get "results" rd = Some v -> results_value_raises v = true ->
  document_passes (JObj d) = false.
Proof.
  intros Hruns Hin Hget Hv. simpl. unfold field_passes. rewrite Hruns. simpl.
  apply (forallb_false_in _ _ _ Hin), (results_value_raises_fails _ _ Hget Hv).
Qed.

(** A value under [runs] that is neither a list nor one that raises: the
    loop has nothing to visit. *)
Lemma quiet_runs_value (d : dict) (v : json) :
  dict_get "runs" d = Some v -> is_array v = false -> runs_value_raises v = false ->
  fix_document (JObj d) = inr (JObj d, 0).
Proof.
  intros Hget Harr Hv. unfold fix_document. simpl. rewrite Hget.
  destruct v as [| | | | s | items | d']; simpl in *; try discriminate.
  - destruct s; [|discriminate]. simpl. rewrite (dict_replace_same _ _ _ Hget). reflexivity.
  - destruct d'; [|discriminate]. simpl. rewrite (dict_replace_same _ _ _ Hget). reflexivity.
Qed.

(** A value under [results] that is neither a list nor one that raises: the
    loop visits strings, deletes nothing and counts nothing. *)
Lemma quiet_results_value (d : dict) (v : json) (c : nat) :
  dict_get "results" d = Some v -> is_array v = false -> results_value_raises v = false ->
  fix_run (JObj d) c = inr (JObj d, c).
Proof.
  intros Hget Harr Hv.
  assert (Hp : run_passes (JObj d) = true).
  { simpl. unfold field_passes. rewrite Hget.
    destruct v as [| | | | s | items | d']; simpl in *; try discriminate.
    - apply chars_pass.
    - rewrite keys_with_fixes_fail, Hv. reflexivity. }
  rewrite (fix_run_passes _ c Hp). unfold run_fixes. simpl. rewrite Hget.
  destruct v; simpl in *; try discriminate; do 2 f_equal; unfold count_true; simpl; lia.
Qed.

(** * The claims *)

Section Claims.
Context `{JsonLib}.

(** C1.  When the input parses to a document in which [k] result objects
    (the elements of [results] over the elements of [runs]) have the key
    [fixes], a call that returns has returned [k] and has written a document
    in which each result is the one of the input without [fixes], so that no
    result object has the key; and the call does return, with [k] (also when
    [k] is 0), on every document of the shape of section 3 when the output
    can be written. *)
Theorem fixes_removed_and_counted (input_file output_file text : string)
    (w : world) (data : json) :
  fs_read (w_fs w) input_file = inr text ->
  json_load text = inr data ->
  (forall n w',
      fix_gosec_sarif input_file output_file w = (inr n, w') ->
      n = count_fixes data /\
      exists data',
        file_text (w_fs w') output_file = Some (json_dump data') /\
        Forall2 (fun run run' => results_of run' = map strip_result (results_of run))
                (runs_of data) (runs_of data') /\
        no_fixes_left data' /\
        count_fixes data' = 0) /\
  (sarif_shaped data = true ->
   can_write (w_fs w) output_file = true ->
   exists w', fix_gosec_sarif input_file output_file w = (inr (count_fixes data), w')).
Proof.
  intros Hread Hload. split.
  - intros n w' Hfix.
    destruct (fix_gosec_sarif_returned _ _ _ _ _ _ _ Hread Hload Hfix)
      as (data' & fs' & Hdoc & Hwrite & ->).
    apply fix_document_returns in Hdoc as [-> ->]. split; [reflexivity|].
    exists (strip_document data). simpl.
    split; [apply (fs_write_text _ _ _ _ Hwrite)|].
    split; [|split; [apply no_fixes_left_strip | apply count_fixes_strip]].
    rewrite runs_of_strip. induction (runs_of data) as [|run l IH]; simpl; constructor.
    + apply results_of_strip.
    + exact IH.
  - intros Hshape Hcan.
    destruct (fs_write_can _ _ (json_dump (strip_document data)) Hcan) as (fs' & Hwrite & _).
    eexists.
    apply (fix_gosec_sarif_written _ _ _ _ _ _ _ _ Hread Hload
             (fix_document_shaped _ Hshape) Hwrite).
Qed.

(** C2.  When a call returns, the written document is the input document
    with the same top-level keys in the same order and the same values under
    every key but [runs]; [runs] has the same runs in the same order, each
    with the same keys and the same values under every key but [results];
    [results] has the same results in the same order, each with its keys
    other than [fixes] in the same order and with the same values. *)
Theorem other_fields_preserved (input_file output_file text : string)
    (w w' : world) (data : json) (n : nat) :
  fs_read (w_fs w) input_file = inr text ->
  json_load text = inr data ->
  fix_gosec_sarif input_file output_file w = (inr n, w') ->
  exists data',
    file_text (w_fs w') output_file = Some (json_dump data') /\
    document_frame data data'.
Proof.
  intros Hread Hload Hfix.
  destruct (fix_gosec_sarif_returned _ _ _ _ _ _ _ Hread Hload Hfix)
    as (data' & fs' & Hdoc & Hwrite & ->).
  apply fix_document_returns in Hdoc as [-> ->].
  exists (strip_document data).
  split; [apply (fs_write_text _ _ _ _ Hwrite) | apply document_frame_strip].
Qed.

(** C3.  When [gosec-raw.sarif] does not exist the process exits with
    status 1, the one line it has added to standard error names the file,
    and it has opened, written and copied nothing: the file system is as it
    was. *)
Theorem missing_input_exits (w : world) :
  fs_files (w_fs w) !! "gosec-raw.sarif" = None ->
  exists message,
    run w = (1%Z, World (w_fs w) (w_stdout w) (w_stderr w ++ [message]) (w_ops w)) /\
    str_contains "gosec-raw.sarif" message = true.
Proof.
  intros Hnone. eexists. split; [apply main_steps_missing, Hnone | reflexivity].
Qed.

(** C4.  When the [try] block is left by a signal, the signal is an
    exception [e]; the handler then attempts [shutil.copy(input, output)] as
    its one file operation.  If the copy succeeds the output holds the bytes
    of the input and standard error ends with the line that says so; if it
    fails the file system is as it was and standard error ends with the line
    that reports the failed copy.  Either way [fix_gosec_sarif] raises [e]
    again, and under [main] the process reports it and exits with status
    1. *)
Theorem processing_failure_recovers (input_file output_file : string)
    (w w1 : world) (s : signal) :
  fix_gosec_sarif_try input_file output_file w = (inl s, w1) ->
  exists e w2,
    s = Exception e /\
    fix_gosec_sarif input_file output_file w = (inl (Exception e), w2) /\
    w_ops w2 = (w_ops w1 ++ [Copy input_file output_file])%list /\
    match fs_copy (w_fs w) input_file output_file with
    | inr fs' =>
        w_fs w2 = fs' /\
        file_text fs' output_file = file_text (w_fs w) input_file /\
        w_stderr w2 = app (w_stderr w)
                        ["Error fixing SARIF: " ++ exn_str e;
                         "Copied raw file to " ++ output_file ++ " (may fail upload)"]
    | inl copy_error =>
        w_fs w2 = w_fs w /\
        w_stderr w2 = app (w_stderr w)
                        ["Error fixing SARIF: " ++ exn_str e;
                         "Failed to copy file: " ++ exn_str copy_error]
    end /\
    (input_file = "gosec-raw.sarif" -> output_file = "gosec.sarif" ->
     is_Some (fs_files (w_fs w) !! "gosec-raw.sarif") ->
     run w = (1%Z, World (w_fs w2) (w_stdout w2)
                         (w_stderr w2 ++ ["❌ Failed to fix gosec.sarif: " ++ exn_str e])
                         (w_ops w2))).
Proof.
  intros Htry.
  destruct (fix_gosec_sarif_try_raises _ _ _ _ _ Htry) as ([e ->] & Hfs & _ & Herr & _).
  pose proof (fix_gosec_sarif_raises _ _ _ _ _ Htry) as Hfix.
  exists e, (recovered w1 input_file output_file e).
  split; [reflexivity|]. split; [exact Hfix|].
  unfold recovered in *. rewrite Hfs, Herr in *.
  split; [destruct (fs_copy (w_fs w) input_file output_file); reflexivity|].
  split.
  - destruct (fs_copy (w_fs w) input_file output_file) as [ce|fs'] eqn:Hcopy; simpl.
    + split; reflexivity.
    + split; [reflexivity|]. split; [|reflexivity].
      apply (fs_copy_text _ _ _ _ Hcopy).
  - intros -> -> Hfound. rewrite (main_steps_found _ Hfound), Hfix. reflexivity.
Qed.

(** C5.  An object without [runs] is processed as one with no runs: the
    document is unchanged and the count is 0, and the call returns 0 after
    writing it.  A run without [results] is processed as one with no results:
    it is unchanged and so is the counter, and in a document whose runs are
    objects with [results] absent or a sequence of objects the count is the
    number of deletions in the results that are there. *)
Theorem absent_keys_are_empty (input_file output_file text : string) (w : world)
    (d rd sd : dict) (runs : list json) (c : nat) :
  (dict_get "runs" d = None ->
   fix_document (JObj d) = inr (JObj d, 0) /\
   (fs_read (w_fs w) input_file = inr text ->
    json_load text = inr (JObj d) ->
    can_write (w_fs w) output_file = true ->
    exists fs',
      fix_gosec_sarif input_file output_file w
      = (inr 0, written w input_file output_file fs') /\
      file_text fs' output_file = Some (json_dump (JObj d)))) /\
  (dict_get "results" rd = None ->
   fix_run (JObj rd) c = inr (JObj rd, c) /\ run_fixes (JObj rd) = 0) /\
  (dict_get "runs" sd = Some (JArr runs) ->
   forallb run_shaped runs = true ->
   fix_document (JObj sd)
   = inr (strip_document (JObj sd), list_sum (map run_fixes runs))).
Proof.
  assert (H1 : dict_get "runs" d = None -> fix_document (JObj d) = inr (JObj d, 0)).
  { intros Hnone. unfold fix_document. simpl. rewrite Hnone. simpl.
    rewrite (dict_replace_absent _ _ _ Hnone). reflexivity. }
  split; [|split].
  - intros Hnone. split; [exact (H1 Hnone)|].
    intros Hread Hload Hcan.
    destruct (fs_write_can _ _ (json_dump (JObj d)) Hcan) as (fs' & Hwrite & Htext).
    exists fs'. split; [|exact Htext].
    apply (fix_gosec_sarif_written _ _ _ _ _ _ _ _ Hread Hload (H1 Hnone) Hwrite).
  - intros Hnone. unfold run_fixes, fix_run. simpl. rewrite Hnone. simpl.
    rewrite (dict_replace_absent _ _ _ Hnone). split; reflexivity.
  - intros Hruns Hall.
    assert (Hshape : sarif_shaped (JObj sd) = true).
    { simpl. unfold absent_or_objects. rewrite Hruns.
      apply andb_true_iff. split; [|exact Hall].
      clear - Hall. induction runs as [|r l IH]; simpl in *; trivial.
      apply andb_true_iff in Hall as [Hr Hl]. rewrite (IH Hl).
      destruct r; try discriminate. reflexivity. }
    rewrite (fix_document_shaped _ Hshape). unfold count_fixes. simpl.
    rewrite Hruns. reflexivity.
Qed.

(** C6.  After a call that returned, a second call that reads the output of
    the first returns 0 and writes the same text, provided the [json] module
    reads back the document it dumped, the first output can be read and the
    second can be written. *)
Theorem second_run_changes_nothing (input_file output_file output_file2 text : string)
    (w w1 : world) (data : json) (n : nat) :
  fs_read (w_fs w) input_file = inr text ->
  json_load text = inr data ->
  fix_gosec_sarif input_file output_file w = (inr n, w1) ->
  json_load (json_dump (strip_document data)) = inr (strip_document data) ->
  can_read (w_fs w1) output_file = true ->
  can_write (w_fs w1) output_file2 = true ->
  exists w2,
    fix_gosec_sarif output_file output_file2 w1 = (inr 0, w2) /\
    file_text (w_fs w2) output_file2 = file_text (w_fs w1) output_file.
Proof.
  intros Hread Hload Hfix Hround Hcanr Hcanw.
  destruct (fix_gosec_sarif_returned _ _ _ _ _ _ _ Hread Hload Hfix)
    as (data' & fs' & Hdoc & Hwrite & ->).
  pose proof (fix_document_again _ _ _ Hdoc) as Hagain.
  apply fix_document_returns in Hdoc as [-> ->].
  destruct (fs_write_text _ _ _ _ Hwrite) as [Htext _]. simpl in *.
  assert (Hread1 : fs_read fs' output_file = inr (json_dump (strip_document data))).
  { unfold fs_read, can_read, file_text in *.
    destruct (fs_files fs' !! output_file) as [f|]; [|discriminate].
    rewrite Hcanr. injection Htext as <-. reflexivity. }
  destruct (fs_write_can _ _ (json_dump (strip_document data)) Hcanw)
    as (fs2 & Hwrite2 & Htext2).
  eexists. split.
  - apply (fix_gosec_sarif_written output_file output_file2 _
             (written w input_file output_file fs') _ _ _ _ Hread1 Hround Hagain Hwrite2).
  - simpl. rewrite Htext, Htext2. reflexivity.
Qed.

(** C7.  The example of section 8: when the input parses to the document of
    the example, the call returns 1 and the output holds the dump of the
    document of the example's output.  The two documents are what the texts
    of the example parse to. *)
Theorem specification_example (input_file output_file text : string) (w : world) :
  (fs_read (w_fs w) input_file = inr text ->
   json_load text = inr example_input ->
   can_write (w_fs w) output_file = true ->
   exists fs',
     fix_gosec_sarif input_file output_file w
     = (inr 1, written w input_file output_file fs') /\
     file_text fs' output_file = Some (json_dump example_output)) /\
  RefJson.load example_input_text = inr example_input /\
  RefJson.load example_output_text = inr example_output.
Proof.
  split; [|split; reflexivity].
  intros Hread Hload Hcan.
  destruct (fs_write_can _ _ (json_dump example_output) Hcan) as (fs' & Hwrite & Htext).
  exists fs'. split; [|exact Htext].
  apply (fix_gosec_sarif_written _ _ _ _ _ example_output _ _ Hread Hload);
    [reflexivity | exact Hwrite].
Qed.

(** C8, as amended.  When the value under [runs] is [null], a boolean, a
    number, a non-empty string or a non-empty object, or when a run object of
    the [runs] list has under [results] [null], a boolean, a number or an
    object with a key that contains [fixes], the [try] block raises: the
    handler attempts the raw copy, the exception is raised again and, under
    [main], the process exits with status 1, as for any other processing
    failure.  The other values that are not lists are iterated without error:
    an empty string or object under [runs], a string or an object without
    such a key under [results]; document and counter are unchanged. *)
Theorem non_sequence_values (input_file output_file text : string) (w : world)
    (d qd rd : dict) (qv rv : json) (c : nat) :
  (fs_read (w_fs w) input_file = inr text ->
   json_load text = inr (JObj d) ->
   (exists x, dict_get "runs" d = Some x /\ runs_value_raises x = true) \/
   (exists runs r x, dict_get "runs" d = Some (JArr runs) /\ In (JObj r) runs /\
                     dict_get "results" r = Some x /\ results_value_raises x = true) ->
   exists e w2,
     fix_gosec_sarif_try input_file output_file w
     = (inl (Exception e), attempted w [OpenRead input_file]) /\
     fix_gosec_sarif input_file output_file w = (inl (Exception e), w2) /\
     w_ops w2 = (w_ops w ++ [OpenRead input_file; Copy input_file output_file])%list /\
     (input_file = "gosec-raw.sarif" -> output_file = "gosec.sarif" ->
      fst (run w) = 1%Z)) /\
  (dict_get "runs" qd = Some qv -> is_array qv = false -> runs_value_raises qv = false ->
   fix_document (JObj qd) = inr (JObj qd, 0)) /\
  (dict_get "results" rd = Some rv -> is_array rv = false -> results_value_raises rv = false ->
   fix_run (JObj rd) c = inr (JObj rd, c)).
Proof.
  split; [|split; [apply quiet_runs_value | apply quiet_results_value]].
  intros Hread Hload Hbad.
  assert (Hfail : document_passes (JObj d) = false).
  { destruct Hbad as [(x & Hx & Hr)|(runs & r & x & Hruns & Hin & Hx & Hr)].
    - exact (runs_value_raises_fails _ _ Hx Hr).
    - exact (bad_results_fail _ _ _ _ Hruns Hin Hx Hr). }
  destruct (fix_document_fails _ Hfail) as [e He].
  assert (Htry : fix_gosec_sarif_try input_file output_file w
                 = (inl (Exception e), attempted w [OpenRead input_file])).
  { rewrite fix_gosec_sarif_try_steps, Hread, Hload, He. reflexivity. }
  pose proof (fix_gosec_sarif_raises _ _ _ _ _ Htry) as Hfix.
  exists e, (recovered (attempted w [OpenRead input_file]) input_file output_file e).
  split; [exact Htry|]. split; [exact Hfix|]. split.
  - unfold recovered.
    destruct (fs_copy _ input_file output_file); simpl; rewrite <- app_assoc; reflexivity.
  - intros -> ->. rewrite main_steps_found, Hfix; [reflexivity|].
    unfold fs_read in Hread.
    destruct (fs_files (w_fs w) !! "gosec-raw.sarif"); [eauto | discriminate].
Qed.

(** C9.  A [fixes] key that is not the immediate key of a result is kept:
    the top-level object and every run keep theirs with its value, and a
    result keeps the whole value under each of its other keys, whatever is
    nested in it.  The count is the number of results with the immediate key:
    a [fixes] at the top level or on a run, and what a result holds under
    another key, do not change it. *)
Theorem fixes_elsewhere_untouched (data data' : json) (n : nat) :
  fix_document data = inr (data', n) ->
  (forall d, data = JObj d ->
     exists d', data' = JObj d' /\ dict_get "fixes" d' = dict_get "fixes" d) /\
  Forall2 (fun run run' =>
             (forall rd, run = JObj rd ->
                exists rd', run' = JObj rd' /\ dict_get "fixes" rd' = dict_get "fixes" rd) /\
             Forall2 (fun r r' =>
                        forall rs, r = JObj rs ->
                          exists rs', r' = JObj rs' /\
                            forall k, k <> "fixes" -> dict_get k rs' = dict_get k rs)
                     (results_of run) (results_of run'))
          (runs_of data) (runs_of data') /\
  n = count_fixes data /\
  (forall d x, count_fixes (JObj (("fixes", x) :: d)) = count_fixes (JObj d)) /\
  (forall rd x, run_fixes (JObj (("fixes", x) :: rd)) = run_fixes (JObj rd)) /\
  (forall rs k x y, k <> "fixes" ->
     fixes_in (JObj ((k, x) :: rs)) = fixes_in (JObj ((k, y) :: rs))).
Proof.
  intros Hfix. apply fix_document_returns in Hfix as [-> ->].
  split; [|split; [|split; [reflexivity|split; [|split]]]].
  - intros d ->. destruct (document_frame_strip (JObj d)) as (d' & Hd' & _ & Hother & _).
    exists d'. split; [exact Hd' | apply Hother; discriminate].
  - rewrite runs_of_strip. apply Forall2_map_frame with (R := fun run run' => _ /\ _).
    intros run. split.
    + intros rd ->. destruct (run_frame_strip (JObj rd)) as (rd' & Hrd' & _ & Hother & _).
      exists rd'. split; [exact Hrd' | apply Hother; discriminate].
    + rewrite results_of_strip. apply Forall2_map_frame with (R := fun r r' => forall rs, _).
      intros r rs ->. destruct (result_frame_strip (JObj rs)) as (rs' & Hrs' & _ & Hother).
      exists rs'. split; [exact Hrs' | exact Hother].
  - reflexivity.
  - reflexivity.
  - intros rs k x y Hk. unfold fixes_in. simpl.
    destruct (String.eqb k "fixes") eqn:E; [|reflexivity].
    apply String.eqb_eq in E. contradiction.
Qed.

(** C10.  When the input parses to a value that is not an object, the call
    does not return 0: [data.get] raises [AttributeError], the handler
    attempts the raw copy, and the exception is raised again. *)
Theorem non_object_document_fails (input_file output_file text : string)
    (w : world) (data : json) :
  fs_read (w_fs w) input_file = inr text ->
  json_load text = inr data ->
  is_object data = false ->
  exists msg w2,
    fix_gosec_sarif input_file output_file w = (inl (Exception (AttributeError msg)), w2) /\
    w_ops w2 = (w_ops w ++ [OpenRead input_file; Copy input_file output_file])%list /\
    forall n w', fix_gosec_sarif input_file output_file w <> (inr n, w').
Proof.
  intros Hread Hload Hobj.
  assert (Hdoc : exists msg, fix_document data = inl (AttributeError msg)).
  { destruct data; try discriminate; unfold fix_document; simpl; eauto. }
  destruct Hdoc as [msg Hdoc].
  assert (Htry : fix_gosec_sarif_try input_file output_file w
                 = (inl (Exception (AttributeError msg)), attempted w [OpenRead input_file])).
  { rewrite fix_gosec_sarif_try_steps, Hread, Hload, Hdoc. reflexivity. }
  pose proof (fix_gosec_sarif_raises _ _ _ _ _ Htry) as Hfix.
  exists msg, (recovered (attempted w [OpenRead input_file]) input_file output_file
                 (AttributeError msg)).
  split; [exact Hfix|]. split.
  - unfold recovered.
    destruct (fs_copy _ input_file output_file); simpl; rewrite <- app_assoc; reflexivity.
  - intros n w' Heq. rewrite Hfix in Heq. discriminate.
Qed.

End Claims.

(** * The script on concrete files *)

(** The example of section 8: one deletion, reported on standard output,
    status 0, and the pretty-printed document in [gosec.sarif]. *)
Example example_run :
  run example_world
  = (0%Z,
     World (FileSystem (list_to_map [("gosec-raw.sarif", plain_file example_input_text);
                                     ("gosec.sarif", plain_file example_output_pretty)])
                       true)
           ["✅ Fixed gosec.sarif format (removed 1 invalid fixes fields)"]
           []
           [OpenRead "gosec-raw.sarif"; OpenWrite "gosec.sarif"]).
Proof. vm_compute. reflexivity. Qed.

(** Text that is not JSON: the raw file is copied, status 1. *)
Example broken_run :
  run broken_world
  = (1%Z,
     World (FileSystem (list_to_map [("gosec-raw.sarif", plain_file "{not json");
                                     ("gosec.sarif", plain_file "{not json")])
                       true)
           []
           ["Error fixing SARIF: Expecting property name enclosed in double quotes";
            "Copied raw file to gosec.sarif (may fail upload)";
            "❌ Failed to fix gosec.sarif: Expecting property name enclosed in double quotes"]
           [OpenRead "gosec-raw.sarif"; Copy "gosec-raw.sarif" "gosec.sarif"]).
Proof. vm_compute. reflexivity. Qed.

(** An output that cannot be written: the write fails, the copy fails too,
    the old output stays, status 1. *)
Example locked_run :
  run locked_world
  = (1%Z,
     World (w_fs locked_world)
           []
           ["Error fixing SARIF: [Errno 13] Permission denied: 'gosec.sarif'";
            "Failed to copy file: [Errno 13] Permission denied: 'gosec.sarif'";
            "❌ Failed to fix gosec.sarif: [Errno 13] Permission denied: 'gosec.sarif'"]
           [OpenRead "gosec-raw.sarif"; OpenWrite "gosec.sarif";
            Copy "gosec-raw.sarif" "gosec.sarif"]).
Proof. vm_compute. reflexivity. Qed.

(** * The claims on concrete files *)

Lemma fixes_removed_and_counted_witness :
  exists w', fix_gosec_sarif "gosec-raw.sarif" "gosec.sarif" example_world = (inr 1, w').
Proof.
  apply (fixes_removed_and_counted "gosec-raw.sarif" "gosec.sarif" example_input_text
           example_world example_input); reflexivity.
Defined.

Lemma other_fields_preserved_witness :
  exists data',
    file_text (w_fs example_world_fixed) "gosec.sarif" = Some (json_dump data') /\
    document_frame example_input data'.
Proof.
  apply (other_fields_preserved "gosec-raw.sarif" "gosec.sarif" example_input_text
           example_world example_world_fixed example_input 1); vm_compute; reflexivity.
Defined.

Lemma missing_input_exits_witness :
  exists message,
    run (directory []) = (1%Z, World (w_fs (directory [])) [] [message] []) /\
    str_contains "gosec-raw.sarif" message = true.
Proof. apply (missing_input_exits (directory [])). reflexivity. Defined.

Lemma processing_failure_recovers_witness :
  fst (run broken_world) = 1%Z.
Proof.
  destruct (processing_failure_recovers "gosec-raw.sarif" "gosec.sarif" broken_world
              (attempted broken_world [OpenRead "gosec-raw.sarif"])
              (Exception (JSONDecodeError "Expecting property name enclosed in double quotes")))
    as (e & w2 & _ & _ & _ & _ & Hrun).
  - vm_compute. reflexivity.
  - rewrite Hrun; [reflexivity | reflexivity | reflexivity |].
    vm_compute. eexists. reflexivity.
Defined.

Lemma absent_keys_are_empty_witness :
  (exists fs',
     fix_gosec_sarif "gosec-raw.sarif" "gosec.sarif" no_runs_world
     = (inr 0, written no_runs_world "gosec-raw.sarif" "gosec.sarif" fs') /\
     file_text fs' "gosec.sarif" = Some (json_dump (JObj no_runs))) /\
  fix_run (JObj [("tool", JStr "gosec")]) 4 = inr (JObj [("tool", JStr "gosec")], 4) /\
  fix_document example_input = inr (example_output, 1).
Proof.
  destruct (absent_keys_are_empty "gosec-raw.sarif" "gosec.sarif"
              (json_text "{'version': '2.1.0'}") no_runs_world
              no_runs [("tool", JStr "gosec")]
              [("runs", JArr (runs_of example_input))] (runs_of example_input) 4)
    as (Hruns & Hresults & Hshaped).
  split; [|split].
  - destruct (Hruns eq_refl) as [_ Hcall].
    apply Hcall; vm_compute; reflexivity.
  - apply (Hresults eq_refl).
  - apply (Hshaped eq_refl eq_refl).
Defined.

Lemma second_run_changes_nothing_witness :
  exists w2,
    fix_gosec_sarif "gosec.sarif" "gosec.sarif" example_world_fixed = (inr 0, w2) /\
    file_text (w_fs w2) "gosec.sarif" = file_text (w_fs example_world_fixed) "gosec.sarif".
Proof.
  apply (second_run_changes_nothing "gosec-raw.sarif" "gosec.sarif" "gosec.sarif"
           example_input_text example_world example_world_fixed example_input 1);
    vm_compute; reflexivity.
Defined.

Lemma specification_example_witness :
  exists fs',
    fix_gosec_sarif "gosec-raw.sarif" "gosec.sarif" example_world
    = (inr 1, written example_world "gosec-raw.sarif" "gosec.sarif" fs') /\
    file_text fs' "gosec.sarif" = Some (json_dump example_output).
Proof.
  apply (specification_example "gosec-raw.sarif" "gosec.sarif" example_input_text
           example_world); vm_compute; reflexivity.
Defined.

Lemma non_sequence_values_witness :
  fst (run null_runs_world) = 1%Z /\
  fix_document (JObj [("runs", JStr EmptyString)]) = inr (JObj [("runs", JStr EmptyString)], 0) /\
  fix_run (JObj [("results", JStr "fixes")]) 2 = inr (JObj [("results", JStr "fixes")], 2).
Proof.
  destruct (non_sequence_values "gosec-raw.sarif" "gosec.sarif"
              (json_text "{'runs': null}") null_runs_world
              [("runs", JNull)] [("runs", JStr EmptyString)] [("results", JStr "fixes")]
              (JStr EmptyString) (JStr "fixes") 2)
    as (Hraises & Hruns & Hresults).
  split; [|split].
  - destruct Hraises as (e & w2 & _ & _ & _ & Hrun).
    + vm_compute. reflexivity.
    + vm_compute. reflexivity.
    + left. exists JNull. split; reflexivity.
    + apply Hrun; reflexivity.
  - apply Hruns; reflexivity.
  - apply Hresults; reflexivity.
Defined.

Lemma fixes_elsewhere_untouched_witness :
  count_fixes fixes_everywhere = 1 /\
  exists d', strip_document fixes_everywhere = JObj d' /\ dict_get "fixes" d' = Some (JInt 1).
Proof.
  destruct (fixes_elsewhere_untouched fixes_everywhere (strip_document fixes_everywhere) 1)
    as (Htop & _ & _ & _).
  - vm_compute. reflexivity.
  - split; [reflexivity|]. apply (Htop _ eq_refl).
Defined.

Lemma non_object_document_fails_witness :
  exists msg w2,
    fix_gosec_sarif "gosec-raw.sarif" "gosec.sarif" array_world
    = (inl (Exception (AttributeError msg)), w2) /\
    w_ops w2 = [OpenRead "gosec-raw.sarif"; Copy "gosec-raw.sarif" "gosec.sarif"] /\
    forall n w', fix_gosec_sarif "gosec-raw.sarif" "gosec.sarif" array_world <> (inr n, w').
Proof.
  apply (non_object_document_fails "gosec-raw.sarif" "gosec.sarif" "[1, 2]" array_world
           (JArr [JInt 1; JInt 2])); vm_compute; reflexivity.
Defined.

(** C8 as stated fails: an empty object under [runs], and an object under
    [results], are present and are not sequences, and the process writes the
    output, reports 0 deletions and exits with status 0. *)
Lemma non_sequence_values_counterexample :
  json_load (json_text "{'runs': {}}") = inr (JObj [("runs", JObj [])]) /\
  json_load (json_text "{'runs': [{'results': {'note': 1}}]}")
  = inr (JObj [("runs", JArr [JObj [("results", JObj [("note", JInt 1)])]])]) /\
  (exists w', fix_gosec_sarif "gosec-raw.sarif" "gosec.sarif" empty_object_runs_world
              = (inr 0, w')) /\
  (exists w', fix_gosec_sarif "gosec-raw.sarif" "gosec.sarif" object_results_world
              = (inr 0, w')) /\
  fst (run empty_object_runs_world) = 0%Z /\
  fst (run object_results_world) = 0%Z /\
  w_ops (snd (run empty_object_runs_world))
  = [OpenRead "gosec-raw.sarif"; OpenWrite "gosec.sarif"] /\
  w_ops (snd (run object_results_world))
  = [OpenRead "gosec-raw.sarif"; OpenWrite "gosec.sarif"].
Proof.
  repeat split; try (vm_compute; reflexivity); eexists; vm_compute; reflexivity.
Qed.

(** * More on the script *)

(** ** The file operations, again *)

Lemma fs_read_found (fs : filesystem) (path text : string) :
  fs_read fs path = inr text -> is_Some (fs_files fs !! path).
Proof.
  unfold fs_read. destruct (fs_files fs !! path); [eauto | discriminate].
Qed.


(** A readable file can be copied to another path that can be written. *)
Lemma fs_copy_can (fs : filesystem) (src dst text : string) :
  fs_read fs src = inr text -> src <> dst -> can_write fs dst = true ->
  exists fs', fs_copy fs src dst = inr fs' /\ file_text fs' dst = Some text.
Proof.
  intros Hread Hne Hcan. unfold fs_copy. pose proof Hread as Hread'.
  unfold fs_read in Hread'.
  destruct (fs_files fs !! src) as [f|]; [|discriminate].
  apply String.eqb_neq in Hne. rewrite Hne, Hread. simpl.
  destruct (fs_write_can fs dst text Hcan) as (fs1 & -> & _). simpl.
  eexists. split; [reflexivity|].
  unfold file_text. simpl. rewrite lookup_insert_eq. reflexivity.
Qed.

Lemma dict_get_none_in (k : string) (d : dict) :
  dict_get k d = None -> dict_in k d = false.
Proof.
  induction d as [|[k' v'] d IH]; simpl; trivial.
  destruct (String.eqb k' k); simpl; [discriminate | exact IH].
Qed.

Lemma forallb_app_both {A : Type} (P : A -> bool) (l1 l2 : list A) :
  forallb P l1 = true -> forallb P l2 = true -> forallb P (l1 ++ l2) = true.
Proof.
  intros H1 H2. induction l1 as [|x l IH]; simpl in *; trivial.
  apply andb_true_iff in H1 as [-> Hl]. simpl. auto.
Qed.

Lemma count_true_le {A : Type} (p : A -> bool) (l : list A) : count_true p l <= length l.
Proof.
  unfold count_true. induction l as [|x l IH]; simpl; trivial.
  destruct (p x); simpl; lia.
Qed.

Section More.
Context `{JsonLib}.

(** The whole call, by what goes wrong first. *)
Lemma fix_gosec_sarif_cases (input_file output_file : string) (w : world) :
  fix_gosec_sarif input_file output_file w =
  match fs_read (w_fs w) input_file with
  | inl e =>
      (inl (Exception e),
       recovered (attempted w [OpenRead input_file]) input_file output_file e)
  | inr text =>
      match json_load text with
      | inl e =>
          (inl (Exception e),
           recovered (attempted w [OpenRead input_file]) input_file output_file e)
      | inr data =>
          match fix_document data with
          | inl e =>
              (inl (Exception e),
               recovered (attempted w [OpenRead input_file]) input_file output_file e)
          | inr (data', n) =>
              match fs_write (w_fs w) output_file (json_dump data') with
              | inl e =>
                  (inl (Exception e),
                   recovered (attempted w [OpenRead input_file; OpenWrite output_file])
                             input_file output_file e)
              | inr fs' => (inr n, written w input_file output_file fs')
              end
          end
      end
  end.
Proof.
  unfold fix_gosec_sarif, try_except. rewrite fix_gosec_sarif_try_steps.
  destruct (fs_read (w_fs w) input_file) as [e|text];
    [apply fix_gosec_sarif_except_steps|].
  destruct (json_load text) as [e|data]; [apply fix_gosec_sarif_except_steps|].
  destruct (fix_document data) as [e|[data' n]]; [apply fix_gosec_sarif_except_steps|].
  destruct (fs_write (w_fs w) output_file (json_dump data')) as [e|fs'];
    [apply fix_gosec_sarif_except_steps | reflexivity].
Qed.

(** What [main] does, before the exit status is read off. *)
Lemma main_steps (w : world) :
  main w =
  if bool_decide (is_Some (fs_files (w_fs w) !! "gosec-raw.sarif"))
  then
    match fix_gosec_sarif "gosec-raw.sarif" "gosec.sarif" w with
    | (inr n, w') =>
        (inl (SystemExit 0),
         World (w_fs w') (w_stdout w' ++
                 ["✅ Fixed gosec.sarif format (removed " ++ str_of_nat n
                  ++ " invalid fixes fields)"])
               (w_stderr w') (w_ops w'))
    | (inl (Exception e), w') =>
        (inl (SystemExit 1),
         World (w_fs w') (w_stdout w')
               (w_stderr w' ++ ["❌ Failed to fix gosec.sarif: " ++ exn_str e])
               (w_ops w'))
    | (inl (SystemExit code), w') => (inl (SystemExit code), w')
    end
  else
    (inl (SystemExit 1),
     World (w_fs w) (w_stdout w)
           (w_stderr w ++ ["Input file gosec-raw.sarif not found"]) (w_ops w)).
Proof.
  unfold main. unfold_M.
  destruct (bool_decide (is_Some (fs_files (w_fs w) !! "gosec-raw.sarif"))); simpl;
    [|reflexivity].
  destruct (fix_gosec_sarif "gosec-raw.sarif" "gosec.sarif" w) as [[[e|code]|n] w'];
    reflexivity.
Qed.



(** X2.  [main] always ends in [sys.exit], with status 0 or 1: it never
    returns, and no exception leaves it. *)
Theorem main_always_exits (w : world) :
  exists code w',
    main w = (inl (SystemExit code), w') /\ (code = 0%Z \/ code = 1%Z) /\
    run w = (code, w').
Proof.
  unfold run. rewrite main_steps.
  destruct (bool_decide (is_Some (fs_files (w_fs w) !! "gosec-raw.sarif")));
    [|eauto 10].
  destruct (fix_gosec_sarif_outcome "gosec-raw.sarif" "gosec.sarif" w)
    as [(n & w' & _ & ->)|(e & w1 & _ & ->)]; eauto 10.
Qed.





(** X7.  A call attempts two or three file operations, the read of the
    input first.  The output is opened for writing only after the input was
    read and parsed and the loop returned, and the copy is attempted only by
    a call that raises. *)
Theorem file_operations_in_order (input_file output_file : string) (w : world) :
  exists ops,
    w_ops (snd (fix_gosec_sarif input_file output_file w)) = (w_ops w ++ ops)%list /\
    ((ops = [OpenRead input_file; OpenWrite output_file] /\
      exists n, fst (fix_gosec_sarif input_file output_file w) = inr n) \/
     (ops = [OpenRead input_file; OpenWrite output_file; Copy input_file output_file] /\
      exists e, fst (fix_gosec_sarif input_file output_file w) = inl (Exception e)) \/
     (ops = [OpenRead input_file; Copy input_file output_file] /\
      exists e, fst (fix_gosec_sarif input_file output_file w) = inl (Exception e))) /\
    (In (OpenWrite output_file) ops ->
     exists text data r,
       fs_read (w_fs w) input_file = inr text /\
       json_load text = inr data /\
       fix_document data = inr r).
Proof.
  assert (Hrec : forall w1 e, w_ops (recovered w1 input_file output_file e)
                              = (w_ops w1 ++ [Copy input_file output_file])%list).
  { intros w1 e. unfold recovered.
    destruct (fs_copy (w_fs w1) input_file output_file); reflexivity. }
  assert (Hearly : forall e,
    fix_gosec_sarif input_file output_file w
    = (inl (Exception e),
       recovered (attempted w [OpenRead input_file]) input_file output_file e) ->
    exists ops,
      w_ops (snd (fix_gosec_sarif input_file output_file w)) = (w_ops w ++ ops)%list /\
      ((ops = [OpenRead input_file; OpenWrite output_file] /\
        exists n, fst (fix_gosec_sarif input_file output_file w) = inr n) \/
       (ops = [OpenRead input_file; OpenWrite output_file; Copy input_file output_file] /\
        exists e, fst (fix_gosec_sarif input_file output_file w) = inl (Exception e)) \/
       (ops = [OpenRead input_file; Copy input_file output_file] /\
        exists e, fst (fix_gosec_sarif input_file output_file w) = inl (Exception e))) /\
      (In (OpenWrite output_file) ops ->
       exists text data r,
         fs_read (w_fs w) input_file = inr text /\
         json_load text = inr data /\
         fix_document data = inr r)).
  { intros e ->. exists [OpenRead input_file; Copy input_file output_file].
    simpl. rewrite Hrec. simpl. rewrite <- app_assoc. split; [reflexivity|].
    split; [right; right; eauto|].
    intros [Heq|[Heq|[]]]; discriminate. }
  pose proof (fix_gosec_sarif_cases input_file output_file w) as Hc.
  destruct (fs_read (w_fs w) input_file) as [e|text] eqn:Hread; [exact (Hearly e Hc)|].
  destruct (json_load text) as [e|data] eqn:Hload; [exact (Hearly e Hc)|].
  destruct (fix_document data) as [e|[data' n]] eqn:Hdoc; [exact (Hearly e Hc)|].
  clear Hearly. rewrite Hc.
  destruct (fs_write (w_fs w) output_file (json_dump data')) as [e|fs'] eqn:Hwrite.
  - exists [OpenRead input_file; OpenWrite output_file; Copy input_file output_file].
    simpl. rewrite Hrec. simpl. rewrite <- app_assoc. split; [reflexivity|].
    split; [right; left; eauto|]. intros _. eauto 10.
  - exists [OpenRead input_file; OpenWrite output_file].
    simpl. split; [reflexivity|]. split; [left; eauto|]. intros _. eauto 10.
Qed.

(** X8.  Called on an input path that does not exist, the function raises
    [FileNotFoundError] for that path after the copy has failed for the same
    reason: the file system is untouched, standard error gets the report of
    the exception and the report of the failed copy, and the output was never
    opened for writing. *)
Theorem missing_input_direct_call (input_file output_file : string) (w : world) :
  fs_files (w_fs w) !! input_file = None ->
  fix_gosec_sarif input_file output_file w
  = (inl (Exception (FileNotFoundError input_file)),
     World (w_fs w) (w_stdout w)
           (app (w_stderr w)
                ["Error fixing SARIF: " ++ exn_str (FileNotFoundError input_file);
                 "Failed to copy file: " ++ exn_str (FileNotFoundError input_file)])
           (app (w_ops w) [OpenRead input_file; Copy input_file output_file])).
Proof.
  intros Hnone. rewrite fix_gosec_sarif_cases.
  unfold fs_read, recovered, fs_copy, attempted. simpl. rewrite Hnone.
  rewrite <- app_assoc. reflexivity.
Qed.

(** X9.  When [gosec-raw.sarif] can be read but its text is not JSON, or is
    a document on which the loop raises, and [gosec.sarif] can be written, the
    process exits with status 1 and [gosec.sarif] holds exactly the bytes of
    [gosec-raw.sarif], which is unchanged; the three lines on standard error
    are the report of the exception, the report of the copy and the final
    failure line, and the output was not opened for writing before the
    copy. *)
Theorem rejected_input_copied_verbatim (w : world) (text : string) :
  fs_read (w_fs w) "gosec-raw.sarif" = inr text ->
  (forall data, json_load text = inr data -> document_passes data = false) ->
  can_write (w_fs w) "gosec.sarif" = true ->
  exists e fs',
    run w
    = (1%Z,
       World fs' (w_stdout w)
             (app (w_stderr w)
                  ["Error fixing SARIF: " ++ exn_str e;
                   "Copied raw file to gosec.sarif (may fail upload)";
                   "❌ Failed to fix gosec.sarif: " ++ exn_str e])
             (app (w_ops w) [OpenRead "gosec-raw.sarif";
                             Copy "gosec-raw.sarif" "gosec.sarif"])) /\
    file_text fs' "gosec.sarif" = Some text /\
    fs_files fs' !! "gosec-raw.sarif" = fs_files (w_fs w) !! "gosec-raw.sarif".
Proof.
  intros Hread Hbad Hcan.
  assert (Hne : "gosec-raw.sarif" <> "gosec.sarif") by discriminate.
  destruct (fs_copy_can _ _ _ _ Hread Hne Hcan) as (fs' & Hcopy & Htext).
  assert (Hraise : exists e,
            fix_gosec_sarif "gosec-raw.sarif" "gosec.sarif" w
            = (inl (Exception e),
               recovered (attempted w [OpenRead "gosec-raw.sarif"])
                         "gosec-raw.sarif" "gosec.sarif" e)).
  { rewrite fix_gosec_sarif_cases, Hread.
    destruct (json_load text) as [e|data] eqn:Hload; [eauto|].
    destruct (fix_document_fails _ (Hbad data eq_refl)) as [e ->]. eauto. }
  destruct Hraise as [e Hfix]. exists e, fs'.
  split; [|split; [exact Htext | apply (fs_copy_text _ _ _ _ Hcopy); congruence]].
  rewrite (main_steps_found _ (fs_read_found _ _ _ Hread)), Hfix.
  unfold recovered, attempted. simpl. rewrite Hcopy. simpl.
  rewrite <- !app_assoc. reflexivity.
Qed.

End More.

(** ** The loop, again *)

(** X10.  The loop returns exactly on the documents that [document_passes]
    describes: the top level is an object; [runs] is absent or is a list, a
    string or an object; every item it yields is an object; its [results] is
    absent or is a list, a string or an object; and every item that yields is
    an object, a string that does not contain [fixes], or a list that does not
    have the element [fixes].  On every other document it raises.  When it
    returns, the document is the stripped one and the counter is the number of
    result objects that had [fixes]. *)
Theorem loop_returns_iff (data : json) :
  ((exists r, fix_document data = inr r) <-> document_passes data = true) /\
  ((exists e, fix_document data = inl e) <-> document_passes data = false) /\
  (forall r, fix_document data = inr r -> r = (strip_document data, count_fixes data)).
Proof.
  split; [|split].
  - split.
    + intros [r Hr]. exact (fix_document_returns_passes _ _ Hr).
    + intros Hp. rewrite (fix_document_passes _ Hp). eauto.
  - split.
    + intros [e He]. destruct (document_passes data) eqn:Hp; trivial.
      rewrite (fix_document_passes _ Hp) in He. discriminate.
    + apply fix_document_fails.
  - intros [data' n] Hr. apply fix_document_returns in Hr as [-> ->]. reflexivity.
Qed.

(** X11.  The counter the loop returns is at most the number of items in
    the [results] of all runs, and the loop removes no run and no result: the
    document it leaves has as many runs, and as many results in all, as the
    one it was given. *)
Theorem count_bounded_by_results (data data' : json) (n : nat) :
  fix_document data = inr (data', n) ->
  n <= total_results data /\
  length (runs_of data') = length (runs_of data) /\
  total_results data' = total_results data.
Proof.
  intros Hfix. apply fix_document_returns in Hfix as [-> ->].
  unfold count_fixes, total_results. rewrite runs_of_strip.
  split; [|split].
  - induction (runs_of data) as [|run l IH]; simpl; trivial.
    pose proof (count_true_le has_fixes (results_of run)). unfold run_fixes at 1. lia.
  - apply length_map.
  - rewrite map_map. f_equal. apply map_ext. intros run.
    rewrite results_of_strip. apply length_map.
Qed.

(** X12.  Runs are processed independently of each other.  If the loop
    returns on a document whose runs are [runs1] and on the same document with
    the runs [runs2], then on the document with the runs [runs1 ++ runs2] it
    returns the sum of the two counters, and the runs it leaves are those it
    left in the two documents, in order. *)
Theorem runs_compose (d : dict) (runs1 runs2 : list json) (data1 data2 : json) (n1 n2 : nat) :
  dict_in "runs" d = true ->
  fix_document (JObj (dict_replace "runs" (JArr runs1) d)) = inr (data1, n1) ->
  fix_document (JObj (dict_replace "runs" (JArr runs2) d)) = inr (data2, n2) ->
  fix_document (JObj (dict_replace "runs" (JArr (runs1 ++ runs2)) d))
  = inr (JObj (dict_replace "runs" (JArr (runs_of data1 ++ runs_of data2)) d), n1 + n2).
Proof.
  intros Hin H1 H2.
  assert (Hget : forall l, dict_get "runs" (dict_replace "runs" (JArr l) d) = Some (JArr l)).
  { intros l. destruct (dict_get "runs" d) as [v|] eqn:Hv.
    - exact (dict_get_replace _ _ _ _ Hv).
    - apply dict_get_none_in in Hv. congruence. }
  pose proof (fix_document_returns_passes _ _ H1) as Hp1.
  pose proof (fix_document_returns_passes _ _ H2) as Hp2.
  apply fix_document_returns in H1 as [-> ->].
  apply fix_document_returns in H2 as [-> ->].
  simpl in Hp1, Hp2. unfold field_passes in Hp1, Hp2. rewrite Hget in Hp1, Hp2.
  simpl in Hp1, Hp2.
  rewrite fix_document_passes.
  2:{ simpl. unfold field_passes. rewrite Hget. simpl. apply forallb_app_both; assumption. }
  rewrite !runs_of_strip. unfold count_fixes. simpl. rewrite !Hget.
  rewrite !dict_replace_twice, !map_app, list_sum_app. reflexivity.
Qed.


(** ** On concrete files *)





Lemma file_operations_in_order_witness :
  exists text data r,
    fs_read (w_fs example_world) "gosec-raw.sarif" = inr text /\
    json_load text = inr data /\
    fix_document data = inr r.
Proof.
  destruct (file_operations_in_order "gosec-raw.sarif" "gosec.sarif" example_world)
    as (ops & Hops & _ & Hwrite).
  apply Hwrite. vm_compute in Hops. rewrite <- Hops. simpl. auto.
Defined.

Lemma missing_input_direct_call_witness :
  fst (fix_gosec_sarif "gosec-raw.sarif" "gosec.sarif" (directory []))
  = inl (Exception (FileNotFoundError "gosec-raw.sarif")).
Proof.
  rewrite (missing_input_direct_call "gosec-raw.sarif" "gosec.sarif" (directory []));
    reflexivity.
Defined.

Lemma rejected_input_copied_verbatim_witness :
  fst (run broken_world) = 1%Z /\
  file_text (w_fs (snd (run broken_world))) "gosec.sarif" = Some "{not json".
Proof.
  destruct (rejected_input_copied_verbatim broken_world "{not json")
    as (e & fs' & Hrun & Htext & _).
  - vm_compute. reflexivity.
  - intros data Hload. vm_compute in Hload. discriminate.
  - vm_compute. reflexivity.
  - rewrite Hrun. split; [reflexivity | exact Htext].
Defined.

Lemma loop_returns_iff_witness : exists r, fix_document fixes_everywhere = inr r.
Proof. apply (loop_returns_iff fixes_everywhere). reflexivity. Defined.

Lemma count_bounded_by_results_witness :
  1 <= total_results example_input /\
  length (runs_of example_output) = length (runs_of example_input) /\
  total_results example_output = total_results example_input.
Proof.
  apply (count_bounded_by_results example_input example_output 1). reflexivity.
Defined.

Lemma runs_compose_witness :
  fix_document
    (JObj (dict_replace "runs" (JArr (runs_of example_input ++ runs_of fixes_everywhere))
                        [("runs", JNull)]))
  = inr (JObj (dict_replace "runs"
                 (JArr (runs_of (strip_document example_input)
                        ++ runs_of (strip_document
                                      (JObj [("runs", JArr (runs_of fixes_everywhere))]))))
                 [("runs", JNull)]),
         1 + 1).
Proof.
  apply (runs_compose [("runs", JNull)] (runs_of example_input) (runs_of fixes_everywhere)
           (strip_document example_input)
           (strip_document (JObj [("runs", JArr (runs_of fixes_everywhere))])) 1 1);
    reflexivity.
Defined.
